(** * Pomodoro timer: technique store and timer/phase controller

    A shallow embedding of [pomodoro_app.py].  The class [PomodoroApp]
    becomes a record of its instance attributes, every method a function
    on that record.  Python integers are [Z], Python strings are
    [string], values decoded from JSON are [pyval].

    What lies behind the Python standard library is abstracted:
    - [json.load] and [json.dump] are taken to be inverse to each other
      on JSON documents, so a file is described by the document it holds
      ([file_state]) and not by its text;
    - the background thread of [run_timer] is observed one loop iteration
      at a time; iterations of distinct threads and the callbacks that Tk
      runs on the main thread interleave in any order ([event]);
    - a method called by Tk runs to its end before the next event, also
      where a message box keeps it waiting;
    - the value of the progress bar, a float, is taken as the rational
      number that it rounds;
    - the widgets of the settings are not modelled. *)

From Stdlib Require Import ZArith QArith List String Bool Lia.
Import ListNotations.

Set Warnings "-register-all".

Open Scope string_scope.
Open Scope list_scope.
Open Scope Z_scope.

(** ** Python values and exceptions *)

Inductive exn : Type :=
  | KeyError
  | TypeError
  | IndexError
  | ZeroDivisionError
  | AttributeError
  | OSError
  | JSONDecodeError.

Inductive result (A : Type) : Type :=
  | Ok (a : A)
  | Raise (e : exn).

Arguments Ok {A} a.
Arguments Raise {A} e.

(** What [json.load] can return: [None], booleans, integers, floats
    (kept as their lexeme), strings, lists and dicts (the items of
    the dict, in insertion order). *)
Inductive pyval : Type :=
  | PNone
  | PBool (b : bool)
  | PInt (z : Z)
  | PFloat (lexeme : string)
  | PStr (s : string)
  | PList (l : list pyval)
  | PDict (items : list (string * pyval)).

(** ** The dataclass [TimerTechnique]

    The annotations of the dataclass ([str], [int]) are not enforced at
    run time, so the record is generic in the type of its fields: the
    timer works on [Technique], whose fields are as annotated, the loader
    builds [LoadedTechnique], whose fields hold whatever the file held. *)

Record TimerTechnique {Str Int : Type} : Type := mkTechnique {
  name : Str;
  work_time : Int;
  break_time : Int;
  long_break_time : Int;
  cycles_before_long_break : Int;
  description : Str
}.

Arguments TimerTechnique : clear implicits.
Arguments mkTechnique {Str Int}.

Definition Technique : Type := TimerTechnique string Z.
Definition LoadedTechnique : Type := TimerTechnique pyval pyval.

(** ** The timer attributes of [PomodoroApp] *)

Inductive Phase : Type := work | break | long_break | ready.

Definition Phase_eqb (p q : Phase) : bool :=
  match p, q with
  | work, work | break, break | long_break, long_break | ready, ready => true
  | _, _ => false
  end.

(** Callables handed to [root.after(0, ...)]. *)
Inductive callback : Type :=
  | cb_update_display
  | cb_handle_timer_complete.

Definition is_complete_cb (c : callback) : bool :=
  match c with cb_handle_timer_complete => true | cb_update_display => false end.

Record PomodoroApp : Type := mkApp {
  (* attributes set in __init__ *)
  timer_running : bool;
  timer_paused : bool;
  remaining_time : Z;
  current_phase : Phase;
  completed_cycles : Z;
  techniques : list Technique;
  current_technique : Technique;
  (* widgets: label texts and button states (NORMAL is true) *)
  time_display : Z * Z;            (* minutes, seconds of the "MM:SS" label *)
  progress : Q;                    (* value of the progress bar *)
  phase_var : string;
  cycle_var : Z * Z;               (* "Cycle: a/b" *)
  start_button : bool;
  pause_button : bool;
  pause_button_text : string;
  reset_button : bool;
  (* run time *)
  timer_threads : nat;             (* live run_timer loops *)
  after_queue : list callback;     (* callbacks waiting in the Tk loop *)
  notifications : list string      (* messages shown, oldest first *)
}.

Section Setters.
Variable s : PomodoroApp.

Definition set_timer_running (b : bool) : PomodoroApp :=
  mkApp b (timer_paused s) (remaining_time s) (current_phase s)
    (completed_cycles s) (techniques s) (current_technique s)
    (time_display s) (progress s) (phase_var s) (cycle_var s)
    (start_button s) (pause_button s) (pause_button_text s) (reset_button s)
    (timer_threads s) (after_queue s) (notifications s).

Definition set_timer_paused (b : bool) : PomodoroApp :=
  mkApp (timer_running s) b (remaining_time s) (current_phase s)
    (completed_cycles s) (techniques s) (current_technique s)
    (time_display s) (progress s) (phase_var s) (cycle_var s)
    (start_button s) (pause_button s) (pause_button_text s) (reset_button s)
    (timer_threads s) (after_queue s) (notifications s).

Definition set_remaining_time (z : Z) : PomodoroApp :=
  mkApp (timer_running s) (timer_paused s) z (current_phase s)
    (completed_cycles s) (techniques s) (current_technique s)
    (time_display s) (progress s) (phase_var s) (cycle_var s)
    (start_button s) (pause_button s) (pause_button_text s) (reset_button s)
    (timer_threads s) (after_queue s) (notifications s).

Definition set_current_phase (p : Phase) : PomodoroApp :=
  mkApp (timer_running s) (timer_paused s) (remaining_time s) p
    (completed_cycles s) (techniques s) (current_technique s)
    (time_display s) (progress s) (phase_var s) (cycle_var s)
    (start_button s) (pause_button s) (pause_button_text s) (reset_button s)
    (timer_threads s) (after_queue s) (notifications s).

Definition set_completed_cycles (z : Z) : PomodoroApp :=
  mkApp (timer_running s) (timer_paused s) (remaining_time s)
    (current_phase s) z (techniques s) (current_technique s)
    (time_display s) (progress s) (phase_var s) (cycle_var s)
    (start_button s) (pause_button s) (pause_button_text s) (reset_button s)
    (timer_threads s) (after_queue s) (notifications s).

Definition set_techniques (ts : list Technique) : PomodoroApp :=
  mkApp (timer_running s) (timer_paused s) (remaining_time s)
    (current_phase s) (completed_cycles s) ts (current_technique s)
    (time_display s) (progress s) (phase_var s) (cycle_var s)
    (start_button s) (pause_button s) (pause_button_text s) (reset_button s)
    (timer_threads s) (after_queue s) (notifications s).

Definition set_current_technique (t : Technique) : PomodoroApp :=
  mkApp (timer_running s) (timer_paused s) (remaining_time s)
    (current_phase s) (completed_cycles s) (techniques s) t (time_display s)
    (progress s) (phase_var s) (cycle_var s) (start_button s)
    (pause_button s) (pause_button_text s) (reset_button s)
    (timer_threads s) (after_queue s) (notifications s).

Definition set_time_display (d : Z * Z) : PomodoroApp :=
  mkApp (timer_running s) (timer_paused s) (remaining_time s)
    (current_phase s) (completed_cycles s) (techniques s)
    (current_technique s) d (progress s) (phase_var s) (cycle_var s)
    (start_button s) (pause_button s) (pause_button_text s) (reset_button s)
    (timer_threads s) (after_queue s) (notifications s).

Definition set_progress (v : Q) : PomodoroApp :=
  mkApp (timer_running s) (timer_paused s) (remaining_time s)
    (current_phase s) (completed_cycles s) (techniques s)
    (current_technique s) (time_display s) v (phase_var s) (cycle_var s)
    (start_button s) (pause_button s) (pause_button_text s) (reset_button s)
    (timer_threads s) (after_queue s) (notifications s).

Definition set_phase_var (v : string) : PomodoroApp :=
  mkApp (timer_running s) (timer_paused s) (remaining_time s)
    (current_phase s) (completed_cycles s) (techniques s)
    (current_technique s) (time_display s) (progress s) v (cycle_var s)
    (start_button s) (pause_button s) (pause_button_text s) (reset_button s)
    (timer_threads s) (after_queue s) (notifications s).

Definition set_cycle_var (v : Z * Z) : PomodoroApp :=
  mkApp (timer_running s) (timer_paused s) (remaining_time s)
    (current_phase s) (completed_cycles s) (techniques s)
    (current_technique s) (time_display s) (progress s) (phase_var s) v
    (start_button s) (pause_button s) (pause_button_text s) (reset_button s)
    (timer_threads s) (after_queue s) (notifications s).

Definition set_start_button (b : bool) : PomodoroApp :=
  mkApp (timer_running s) (timer_paused s) (remaining_time s)
    (current_phase s) (completed_cycles s) (techniques s)
    (current_technique s) (time_display s) (progress s) (phase_var s)
    (cycle_var s) b (pause_button s) (pause_button_text s) (reset_button s)
    (timer_threads s) (after_queue s) (notifications s).

Definition set_pause_button (b : bool) (text : string) : PomodoroApp :=
  mkApp (timer_running s) (timer_paused s) (remaining_time s)
    (current_phase s) (completed_cycles s) (techniques s)
    (current_technique s) (time_display s) (progress s) (phase_var s)
    (cycle_var s) (start_button s) b text (reset_button s) (timer_threads s)
    (after_queue s) (notifications s).

Definition set_reset_button (b : bool) : PomodoroApp :=
  mkApp (timer_running s) (timer_paused s) (remaining_time s)
    (current_phase s) (completed_cycles s) (techniques s)
    (current_technique s) (time_display s) (progress s) (phase_var s)
    (cycle_var s) (start_button s) (pause_button s) (pause_button_text s) b
    (timer_threads s) (after_queue s) (notifications s).

Definition set_timer_threads (n : nat) : PomodoroApp :=
  mkApp (timer_running s) (timer_paused s) (remaining_time s)
    (current_phase s) (completed_cycles s) (techniques s)
    (current_technique s) (time_display s) (progress s) (phase_var s)
    (cycle_var s) (start_button s) (pause_button s) (pause_button_text s)
    (reset_button s) n (after_queue s) (notifications s).

Definition set_after_queue (q : list callback) : PomodoroApp :=
  mkApp (timer_running s) (timer_paused s) (remaining_time s)
    (current_phase s) (completed_cycles s) (techniques s)
    (current_technique s) (time_display s) (progress s) (phase_var s)
    (cycle_var s) (start_button s) (pause_button s) (pause_button_text s)
    (reset_button s) (timer_threads s) q (notifications s).

Definition set_notifications (l : list string) : PomodoroApp :=
  mkApp (timer_running s) (timer_paused s) (remaining_time s)
    (current_phase s) (completed_cycles s) (techniques s)
    (current_technique s) (time_display s) (progress s) (phase_var s)
    (cycle_var s) (start_button s) (pause_button s) (pause_button_text s)
    (reset_button s) (timer_threads s) (after_queue s) l.

End Setters.

(** [threading.Thread(target=self.run_timer).start()] *)
Definition spawn_run_timer (s : PomodoroApp) : PomodoroApp :=
  set_timer_threads s (S (timer_threads s)).

(** [self.root.after(0, c)] *)
Definition root_after (c : callback) (s : PomodoroApp) : PomodoroApp :=
  set_after_queue s (after_queue s ++ [c]).

(** ** Methods of the timer *)

(** Minutes of a phase, as [update_display] reads them for its total. *)
Definition phase_minutes (t : Technique) (p : Phase) : Z :=
  match p with
  | work => work_time t
  | break => break_time t
  | _ => long_break_time t
  end.

(** [update_display].  While the timer runs unpaused the label shows
    the remaining time and the bar the share of the phase that has
    elapsed; the division raises when the phase lasts 0 seconds, after the
    label was set and before the bar is.  Otherwise the label shows the
    work time of the current technique and the bar is at 0. *)
Definition update_display (s : PomodoroApp) : PomodoroApp * option exn :=
  if timer_running s && negb (timer_paused s) then
    let s := set_time_display s (remaining_time s / 60, remaining_time s mod 60) in
    let total_seconds := phase_minutes (current_technique s) (current_phase s) * 60 in
    if total_seconds =? 0 then (s, Some ZeroDivisionError)
    else
      (set_progress s
         (inject_Z (total_seconds - remaining_time s) / inject_Z total_seconds * 100)%Q,
       None)
  else
    (set_progress (set_time_display s (work_time (current_technique s), 0)) 0%Q, None).

Definition start_timer (s : PomodoroApp) : PomodoroApp :=
  if timer_running s && timer_paused s then
    (* Resume from pause *)
    let s := set_timer_paused s false in
    let s := set_start_button s false in
    set_pause_button s true "Pause"
  else
    (* Start new timer *)
    let s := set_timer_running s true in
    let s := set_timer_paused s false in
    let s := set_current_phase s work in
    let s := set_remaining_time s (work_time (current_technique s) * 60) in
    let s := set_phase_var s "Work Time" in
    let s := spawn_run_timer s in
    let s := set_start_button s false in
    let s := set_pause_button s true (pause_button_text s) in
    set_reset_button s true.

Definition pause_timer (s : PomodoroApp) : PomodoroApp :=
  if timer_running s && negb (timer_paused s) then
    let s := set_timer_paused s true in
    let s := set_pause_button s (pause_button s) "Resume" in
    set_start_button s true
  else
    let s := set_timer_paused s false in
    let s := set_pause_button s (pause_button s) "Pause" in
    set_start_button s false.

Definition reset_timer (s : PomodoroApp) : PomodoroApp :=
  let s := set_timer_running s false in
  let s := set_timer_paused s false in
  let s := set_current_phase s ready in
  let s := set_completed_cycles s 0 in
  let s := set_phase_var s "Ready to start" in
  let s := set_cycle_var s (0, cycles_before_long_break (current_technique s)) in
  let s := set_start_button s true in
  let s := set_pause_button s false "Pause" in
  let s := set_reset_button s false in
  fst (update_display s).

(** One pass of a [run_timer] thread through its [while] test.  When the
    test holds the thread decrements (or, paused, only sleeps) and stays
    alive; when it fails the thread leaves the loop, hands
    [handle_timer_complete] to the Tk loop if the timer is still running,
    and ends. *)
Definition run_timer_step (s : PomodoroApp) : PomodoroApp :=
  if timer_running s && (0 <? remaining_time s) then
    if negb (timer_paused s) then
      let s := set_remaining_time s (remaining_time s - 1) in
      root_after cb_update_display s
    else s
  else
    let s := set_timer_threads s (pred (timer_threads s)) in
    if timer_running s then root_after cb_handle_timer_complete s else s.

Definition notification_message (p : Phase) : string :=
  match p with
  | work => "Work period complete! Time for a break."
  | break => "Break time complete! Back to work."
  | _ => "Long break complete! Time to get back to work."
  end.

Definition show_notification (s : PomodoroApp) : PomodoroApp :=
  set_notifications s (notifications s ++ [notification_message (current_phase s)]).

(** [handle_timer_complete].  The [%] of Python raises when the divisor
    is zero; the exception leaves the method after [completed_cycles] was
    incremented, so the state reached is returned next to it. *)
Definition handle_timer_complete (s : PomodoroApp) : PomodoroApp * option exn :=
  let s := show_notification s in
  let t := current_technique s in
  let finish (s : PomodoroApp) :=
    let s := set_cycle_var s (completed_cycles s, cycles_before_long_break t) in
    (spawn_run_timer s, None) in
  match current_phase s with
  | work =>
      let s := set_completed_cycles s (completed_cycles s + 1) in
      if cycles_before_long_break t =? 0 then (s, Some ZeroDivisionError)
      else if completed_cycles s mod cycles_before_long_break t =? 0 then
        let s := set_current_phase s long_break in
        let s := set_remaining_time s (long_break_time t * 60) in
        finish (set_phase_var s "Long Break")
      else
        let s := set_current_phase s break in
        let s := set_remaining_time s (break_time t * 60) in
        finish (set_phase_var s "Break Time")
  | _ =>
      let s := set_current_phase s work in
      let s := set_remaining_time s (work_time t * 60) in
      finish (set_phase_var s "Work Time")
  end.

(** [on_technique_changed]: the first technique with the selected name
    becomes current; no match changes nothing.  When [update_display]
    raises, the cycle label is not set. *)
Definition on_technique_changed (selected_name : string) (s : PomodoroApp)
    : PomodoroApp * option exn :=
  match find (fun t => String.eqb (name t) selected_name) (techniques s) with
  | Some t =>
      let s := set_current_technique s t in
      match update_display s with
      | (s, Some e) => (s, Some e)
      | (s, None) => (set_cycle_var s (0, cycles_before_long_break t), None)
      end
  | None => (s, None)
  end.

(** [__init__] once the techniques are known: the attributes, then the
    widgets of [create_widgets], which ends with [update_display]. *)
Definition new_app (t : Technique) (ts : list Technique) : PomodoroApp :=
  fst (update_display
         (mkApp false false 0 work 0 ts t (25, 0) 0%Q "Ready to start" (0, 4)
            true false "Pause" false O [] [])).

(** [self.techniques[0]] raises on an empty list. *)
Definition init (ts : list Technique) : result PomodoroApp :=
  match ts with
  | [] => Raise IndexError
  | t :: _ => Ok (new_app t ts)
  end.

(** ** The event loop *)

Inductive event : Type :=
  | Start                      (* click on Start *)
  | Pause                      (* click on Pause *)
  | Reset                      (* click on Reset *)
  | Select (selected : string) (* choice in the technique list *)
  | Tick                       (* a live run_timer thread runs one pass *)
  | Dispatch.                  (* Tk runs the oldest waiting callback *)

(** A disabled button does not call its command.  An exception raised
    in a callback ends the callback and leaves the state reached. *)
Definition click (enabled : bool) (command : PomodoroApp -> PomodoroApp)
    (s : PomodoroApp) : PomodoroApp :=
  if enabled then command s else s.

Definition run_callback (c : callback) (s : PomodoroApp) : PomodoroApp :=
  match c with
  | cb_update_display => fst (update_display s)
  | cb_handle_timer_complete => fst (handle_timer_complete s)
  end.

Definition step (e : event) (s : PomodoroApp) : PomodoroApp :=
  match e with
  | Start => click (start_button s) start_timer s
  | Pause => click (pause_button s) pause_timer s
  | Reset => click (reset_button s) reset_timer s
  | Select n => fst (on_technique_changed n s)
  | Tick => match timer_threads s with O => s | S _ => run_timer_step s end
  | Dispatch =>
      match after_queue s with
      | [] => s
      | c :: q => run_callback c (set_after_queue s q)
      end
  end.

Definition run (es : list event) (s : PomodoroApp) : PomodoroApp :=
  fold_left (fun s e => step e s) es s.


(** ** The technique store *)

(** The file [techniques.json] as [load_techniques] meets it: absent,
    present but raising when opened or decoded, or holding a document. *)
Inductive file_state : Type :=
  | NoFile
  | Unreadable (e : exn)
  | Document (v : pyval).

Inductive dialog : Type :=
  | showerror (title message : string) (cause : option exn)
  | showinfo (title message : string).

Fixpoint dict_get (k : string) (items : list (string * pyval)) : option pyval :=
  match items with
  | [] => None
  | (k', v) :: rest => if String.eqb k' k then Some v else dict_get k rest
  end.

(** [d[k]] for a string [k] *)
Definition subscript (d : pyval) (k : string) : result pyval :=
  match d with
  | PDict items =>
      match dict_get k items with
      | Some v => Ok v
      | None => Raise KeyError
      end
  | _ => Raise TypeError
  end.

(** [d.get(k, default)] *)
Definition get (d : pyval) (k : string) (default : pyval) : result pyval :=
  match d with
  | PDict items =>
      match dict_get k items with
      | Some v => Ok v
      | None => Ok default
      end
  | _ => Raise AttributeError
  end.

Fixpoint chars (s : string) : list pyval :=
  match s with
  | EmptyString => []
  | String c rest => PStr (String c EmptyString) :: chars rest
  end.

(** What a [for] loop over the value runs through. *)
Definition iterate (v : pyval) : result (list pyval) :=
  match v with
  | PList l => Ok l
  | PDict items => Ok (map (fun kv => PStr (fst kv)) items)
  | PStr s => Ok (chars s)
  | _ => Raise TypeError
  end.

Definition bind {A B : Type} (r : result A) (k : A -> result B) : result B :=
  match r with
  | Ok a => k a
  | Raise e => Raise e
  end.

Notation "x <- r ;; k" := (bind r (fun x => k))
  (at level 61, r at next level, right associativity).

(** The body of the loop of [load_techniques]. *)
Definition technique_of_data (t_data : pyval) : result LoadedTechnique :=
  n <- subscript t_data "name" ;;
  w <- subscript t_data "work_time" ;;
  b <- subscript t_data "break_time" ;;
  l <- get t_data "long_break_time" (PInt 15) ;;
  c <- get t_data "cycles_before_long_break" (PInt 4) ;;
  d <- get t_data "description" (PStr "") ;;
  Ok (mkTechnique n w b l c d).

Fixpoint techniques_of_data (l : list pyval) : result (list LoadedTechnique) :=
  match l with
  | [] => Ok []
  | t_data :: rest =>
      t <- technique_of_data t_data ;;
      ts <- techniques_of_data rest ;;
      Ok (t :: ts)
  end.

(** The default values of the dataclass fill the three fields that the
    default list leaves out. *)
Definition default_techniques : list Technique :=
  [ mkTechnique "Classic Pomodoro" 25 5 15 4
      "The classic Pomodoro technique with 25-minute work sessions and 5-minute breaks.";
    mkTechnique "Long Focus" 50 10 15 4
      "Longer focus sessions with 50-minute work periods and 10-minute breaks.";
    mkTechnique "Short Burst" 15 3 15 4
      "Short bursts of intense focus with 15-minute work sessions and 3-minute breaks." ].

Definition as_loaded (t : Technique) : LoadedTechnique :=
  mkTechnique (PStr (name t)) (PInt (work_time t)) (PInt (break_time t))
    (PInt (long_break_time t)) (PInt (cycles_before_long_break t))
    (PStr (description t)).

Definition load_failed (e : exn) : dialog :=
  showerror "Error" "Failed to load techniques: " (Some e).

(** [os.path.exists(config_file)] *)
Definition path_exists (f : file_state) : bool :=
  match f with
  | NoFile => false
  | _ => true
  end.

(** [open(config_file, 'r')] followed by [json.load(f)] *)
Definition json_load (f : file_state) : result pyval :=
  match f with
  | NoFile => Raise OSError
  | Unreadable e => Raise e
  | Document v => Ok v
  end.

(** The [try] block of [load_techniques]. *)
Definition read_techniques (f : file_state) : result (list LoadedTechnique) :=
  techniques_data <- json_load f ;;
  l <- iterate techniques_data ;;
  techniques_of_data l.

(** [load_techniques]: what the method returns or raises, and the
    dialogs it shows.  The [except] clause shows the error and falls
    through to the default list. *)
Definition load_techniques (f : file_state)
    : result (list LoadedTechnique) * list dialog :=
  let defaults := Ok (map as_loaded default_techniques) in
  if path_exists f then
    match read_techniques f with
    | Ok ts => (Ok ts, [])
    | Raise e => (defaults, [load_failed e])
    end
  else (defaults, []).

(** The dict that [save_techniques] builds for one technique. *)
Definition technique_data (t : LoadedTechnique) : pyval :=
  PDict [ ("name", name t);
          ("work_time", work_time t);
          ("break_time", break_time t);
          ("long_break_time", long_break_time t);
          ("cycles_before_long_break", cycles_before_long_break t);
          ("description", description t) ].

Record filesystem : Type := mkFs {
  config_dir : bool;            (* the directory exists *)
  config_file : file_state
}.

(** Where the operating system lets [save_techniques] down. *)
Inductive fault : Type :=
  | no_fault
  | makedirs_fails
  | open_fails
  | dump_fails.

Definition save_failed : dialog :=
  showerror "Error" "Failed to save techniques: " (Some OSError).

(** [save_techniques]: [os.makedirs] stands before the [try] block, so
    its exception leaves the method.  [open(config_file, 'w')] empties the
    file it opens; when [json.dump] then fails the file is left with the
    text written so far, which [json.load] cannot decode. *)
Definition save_techniques (ts : list LoadedTechnique) (flt : fault)
    (fs : filesystem) : filesystem * list dialog * option exn :=
  match flt with
  | makedirs_fails => (fs, [], Some OSError)
  | open_fails => (mkFs true (config_file fs), [save_failed], None)
  | dump_fails => (mkFs true (Unreadable JSONDecodeError), [save_failed], None)
  | no_fault => (mkFs true (Document (PList (map technique_data ts))), [], None)
  end.

(** ** The dialog that edits the techniques *)

Record technique_frame : Type := mkFrame {
  vars : Technique;       (* name_var, work_var, ... , desc_var *)
  deleted : bool
}.

(** The frames that [edit_techniques] builds, one per technique. *)
Definition edit_techniques (ts : list Technique) : list technique_frame :=
  map (fun t => mkFrame t false) ts.

Definition live (frames : list technique_frame) : list technique_frame :=
  filter (fun f => negb (deleted f)) frames.

Fixpoint mark_deleted (idx : nat) (frames : list technique_frame)
    : result (list technique_frame) :=
  match frames, idx with
  | [], _ => Raise IndexError
  | f :: rest, O => Ok (mkFrame (vars f) true :: rest)
  | f :: rest, S i => rest' <- mark_deleted i rest ;; Ok (f :: rest')
  end.

Definition at_least_one : dialog :=
  showerror "Error" "You must have at least one technique." None.

Definition delete_technique_frame (idx : nat) (frames : list technique_frame)
    : result (list technique_frame * list dialog) :=
  if (List.length (live frames) <=? 1)%nat then Ok (frames, [at_least_one])
  else frames' <- mark_deleted idx frames ;; Ok (frames', []).

(** [save_technique_changes]: the techniques of the frames not deleted
    replace the list. *)
Definition updated_techniques (frames : list technique_frame) : list Technique :=
  map vars (live frames).

(** [save_new_technique]: [self.techniques.append(technique)] *)
Definition save_new_technique (t : Technique) (ts : list Technique) : list Technique :=
  ts ++ [t].

(** ** Start of the application *)

Definition as_annotated (t : LoadedTechnique) : option Technique :=
  match name t, work_time t, break_time t, long_break_time t,
        cycles_before_long_break t, description t with
  | PStr n, PInt w, PInt b, PInt l, PInt c, PStr d => Some (mkTechnique n w b l c d)
  | _, _, _, _, _, _ => None
  end.

Fixpoint all_annotated (ts : list LoadedTechnique) : option (list Technique) :=
  match ts with
  | [] => Some []
  | t :: rest =>
      match as_annotated t, all_annotated rest with
      | Some t', Some rest' => Some (t' :: rest')
      | _, _ => None
      end
  end.

(** [PomodoroApp(root)] for a file whose fields have the annotated
    types ([None] for the others, which the timer does not cover). *)
Definition startup (f : file_state) : option (result PomodoroApp) :=
  match fst (load_techniques f) with
  | Ok loaded => option_map init (all_annotated loaded)
  | Raise e => Some (Raise e)
  end.

(** ** Vocabulary of the properties *)

(** The states of the controller, read off the two flags. *)
Definition Idle (s : PomodoroApp) : Prop := timer_running s = false.
Definition Running (s : PomodoroApp) : Prop :=
  timer_running s = true /\ timer_paused s = false.
Definition Paused (s : PomodoroApp) : Prop :=
  timer_running s = true /\ timer_paused s = true.

(** The timer attributes, without widgets and threads. *)
Definition timer_state (s : PomodoroApp) : bool * bool * Z * Phase * Z :=
  (timer_running s, timer_paused s, remaining_time s, current_phase s,
   completed_cycles s).

(** The time on the label, in seconds. *)
Definition displayed_seconds (s : PomodoroApp) : Z :=
  fst (time_display s) * 60 + snd (time_display s).

(** The timer as it shows while it does not count down: the two flags,
    the count of cycles and the time on the label. *)
Definition idle_view (s : PomodoroApp) : bool * bool * Z * Z :=
  (timer_running s, timer_paused s, completed_cycles s, displayed_seconds s).

(** The state that [handle_timer_complete] leaves. *)
Definition complete (s : PomodoroApp) : PomodoroApp := fst (handle_timer_complete s).

(** A work phase and the break after it, both run to their end. *)
Definition full_cycle (s : PomodoroApp) : PomodoroApp := complete (complete s).

(** Calls of [handle_timer_complete] that wait in the Tk loop. *)
Definition pending_completions (s : PomodoroApp) : nat :=
  List.length (filter is_complete_cb (after_queue s)).

(** Durations that are not negative. *)
Definition sound (t : Technique) : Prop :=
  0 <= work_time t /\ 0 <= break_time t /\ 0 <= long_break_time t.

(** The states that the application goes through from its start. *)
Definition reachable (ts : list Technique) (s : PomodoroApp) : Prop :=
  exists (s0 : PomodoroApp) (es : list event), init ts = Ok s0 /\ s = run es s0.

(** What the buttons and flags maintain in every state. *)
Definition consistent (s : PomodoroApp) : Prop :=
  (start_button s = true -> timer_running s = false \/ timer_paused s = true) /\
  (pause_button s = true -> timer_running s = true) /\
  (timer_running s = false -> timer_paused s = false).

(** Sound durations, and a remaining time that is not negative. *)
Definition well_formed (s : PomodoroApp) : Prop :=
  Forall sound (techniques s) /\ sound (current_technique s) /\
  0 <= remaining_time s.

(** A record as the loop of [load_techniques] reads it from a dict: the
    three required keys, and the three optional ones with the value that
    stands in for a missing key. *)
Definition optional (items : list (string * pyval)) (k : string)
    (default field : pyval) : Prop :=
  (dict_get k items = None -> field = default) /\
  (forall v, dict_get k items = Some v -> field = v).

Definition read_from (t_data : pyval) (t : LoadedTechnique) : Prop :=
  exists items, t_data = PDict items /\
    dict_get "name" items = Some (name t) /\
    dict_get "work_time" items = Some (work_time t) /\
    dict_get "break_time" items = Some (break_time t) /\
    optional items "long_break_time" (PInt 15) (long_break_time t) /\
    optional items "cycles_before_long_break" (PInt 4) (cycles_before_long_break t) /\
    optional items "description" (PStr "") (description t).

(** ** Sample states *)

Definition classic : Technique := hd (mkTechnique "" 0 0 0 0 "") default_techniques.

Definition classic_app : PomodoroApp := new_app classic default_techniques.

(** Start, Reset and Start again while the first thread sleeps, then the
    1500 seconds of the work phase. *)
Definition restart_trace : list event :=
  [Start; Tick; Reset; Start] ++ repeat Tick 1500.

Definition missing_optional : pyval :=
  PList [PDict [("name", PStr "Deep"); ("work_time", PInt 90); ("break_time", PInt 20)]].

(** ** Further methods *)

(** A click on the Delete button of frame [idx].  An exception raised
    in a Tk callback ends the callback; [delete_technique_frame] raises
    before it changes a frame. *)
Definition click_delete (frames : list technique_frame) (idx : nat)
    : list technique_frame :=
  match delete_technique_frame idx frames with
  | Ok (frames', _) => frames'
  | Raise _ => frames
  end.

(** [save_technique_changes], from its start to the assignment of
    [current_technique]: the list is replaced, saved, and its first
    technique becomes the current one.  The exception of [os.makedirs]
    and that of [self.techniques[0]] leave the method where they are
    raised.  The updates of the widgets that follow are left out. *)
Definition save_technique_changes (frames : list technique_frame) (flt : fault)
    (s : PomodoroApp) (fs : filesystem)
    : PomodoroApp * filesystem * list dialog * option exn :=
  let s := set_techniques s (updated_techniques frames) in
  match save_techniques (map as_loaded (techniques s)) flt fs with
  | (fs', dialogs, Some e) => (s, fs', dialogs, Some e)
  | (fs', dialogs, None) =>
      match techniques s with
      | [] => (s, fs', dialogs, Some IndexError)
      | t :: _ => (set_current_technique s t, fs', dialogs, None)
      end
  end.




(** [center_window]: the geometry [width x height + x + y] that it
    sets, from the size of the window and of the screen. *)
Definition center_window (width height screenwidth screenheight : Z) : Z * Z * Z * Z :=
  let x := screenwidth / 2 - width / 2 in
  let y := screenheight / 2 - height / 2 in
  (width, height, x, y).

(** ** Further vocabulary *)

(** The buttons say what the flags say. *)
Definition buttons_agree (s : PomodoroApp) : Prop :=
  start_button s = negb (timer_running s && negb (timer_paused s)) /\
  pause_button s = timer_running s /\
  reset_button s = timer_running s /\
  pause_button_text s = (if timer_paused s then "Resume" else "Pause") /\
  (timer_paused s = true -> timer_running s = true).

(** Two dicts that hold the same under the six keys of a technique. *)
Definition same_fields (items items' : list (string * pyval)) : Prop :=
  forall k, In k ["name"; "work_time"; "break_time"; "long_break_time";
                  "cycles_before_long_break"; "description"] ->
            dict_get k items = dict_get k items'.

(** The list of techniques is the one the application started with,
    the current technique is one of them, and no count is negative. *)
Definition steady (ts : list Technique) (s : PomodoroApp) : Prop :=
  techniques s = ts /\ In (current_technique s) ts /\ 0 <= completed_cycles s.

(** A technique whose cycle length is zero. *)
Definition no_cycle : Technique := mkTechnique "Odd" 1 1 1 0 "".

(** * Properties *)

(** ** Phase completion *)

Lemma complete_work (s : PomodoroApp) :
  current_phase s = work ->
  cycles_before_long_break (current_technique s) <> 0 ->
  let p := if (completed_cycles s + 1) mod cycles_before_long_break (current_technique s) =? 0
           then long_break else break in
  handle_timer_complete s =
    (spawn_run_timer
       (set_cycle_var
          (set_phase_var
             (set_remaining_time
                (set_current_phase
                   (set_completed_cycles (show_notification s) (completed_cycles s + 1)) p)
                (phase_minutes (current_technique s) p * 60))
             (if Phase_eqb p long_break then "Long Break" else "Break Time"))
          (completed_cycles s + 1, cycles_before_long_break (current_technique s))),
     None).
Proof.
  intros Hp Hc. unfold handle_timer_complete. simpl. rewrite Hp.
  destruct (Z.eqb_spec (cycles_before_long_break (current_technique s)) 0) as [E | _];
    [contradiction |].
  destruct (_ mod _ =? 0); reflexivity.
Qed.

Lemma complete_break (s : PomodoroApp) :
  current_phase s <> work ->
  handle_timer_complete s =
    (spawn_run_timer
       (set_cycle_var
          (set_phase_var
             (set_remaining_time (set_current_phase (show_notification s) work)
                (work_time (current_technique s) * 60))
             "Work Time")
          (completed_cycles s, cycles_before_long_break (current_technique s))),
     None).
Proof.
  intros Hp. unfold handle_timer_complete. simpl.
  destruct (current_phase s); [contradiction | reflexivity ..].
Qed.

(** The thread that finds the time used up while the timer runs hands
    [handle_timer_complete] to Tk and ends; Tk then runs it. *)
Lemma tick_at_zero (s : PomodoroApp) :
  timer_running s = true ->
  remaining_time s <= 0 ->
  timer_threads s <> O ->
  step Tick s =
    root_after cb_handle_timer_complete (set_timer_threads s (pred (timer_threads s))).
Proof.
  intros Hr Hz Ht. unfold step, run_timer_step.
  destruct (timer_threads s) as [| n]; [contradiction |].
  rewrite Hr. simpl. destruct (Z.ltb_spec 0 (remaining_time s)); [lia |].
  simpl. rewrite Hr. reflexivity.
Qed.

Lemma full_cycle_iter (s : PomodoroApp) (n : nat) :
  current_phase s = work ->
  cycles_before_long_break (current_technique s) <> 0 ->
  let s' := Nat.iter n full_cycle s in
  current_phase s' = work /\
  completed_cycles s' = completed_cycles s + Z.of_nat n /\
  current_technique s' = current_technique s.
Proof.
  intros Hp Hc. induction n as [| n IH].
  - simpl. repeat split; auto; lia.
  - cbv zeta in IH |- *. destruct IH as (IHp & IHc & IHt).
    rewrite Nat.iter_succ. set (s1 := Nat.iter n full_cycle s) in *.
    unfold full_cycle, complete.
    rewrite (complete_work s1 IHp) by (rewrite IHt; exact Hc).
    cbv zeta. rewrite complete_break.
    + simpl. rewrite IHc, IHt. repeat split; auto; lia.
    + simpl. destruct (_ mod _ =? 0); discriminate.
Qed.

(** C1: [handle_timer_complete] applies the transition table.  After a
    work phase the cycle count grows by one and a long break follows when
    the count is a multiple of [cycles_before_long_break], a break
    otherwise; after either break a work phase follows; the remaining time
    is that of the new phase, in seconds; a new [run_timer] thread is
    started.  It is what runs when a thread finds the time used up while
    the timer runs.  With four cycles before the long break, the
    completion of work phase number [n + 1] leads to the long break
    exactly when [n + 1] is a multiple of four. *)
Theorem C1_phase_transition (s : PomodoroApp) :
  cycles_before_long_break (current_technique s) <> 0 ->
  let t := current_technique s in
  let s' := fst (handle_timer_complete s) in
  snd (handle_timer_complete s) = None /\
  (current_phase s = work ->
     completed_cycles s' = completed_cycles s + 1 /\
     current_phase s' =
       if completed_cycles s' mod cycles_before_long_break t =? 0
       then long_break else break) /\
  (current_phase s = break \/ current_phase s = long_break ->
     completed_cycles s' = completed_cycles s /\ current_phase s' = work) /\
  remaining_time s' = phase_minutes t (current_phase s') * 60 /\
  timer_threads s' = S (timer_threads s) /\
  (timer_running s = true -> remaining_time s <= 0 ->
   timer_threads s = 1%nat -> after_queue s = [] ->
     run [Tick; Dispatch] s = set_timer_threads s' 1) /\
  (cycles_before_long_break t = 4 -> current_phase s = work ->
   completed_cycles s = 0 ->
     forall n : nat,
       current_phase (complete (Nat.iter n full_cycle s)) =
         if Z.of_nat (S n) mod 4 =? 0 then long_break else break).
Proof.
  intros Hc t s'. subst t s'.
  assert (Hcases : current_phase s = work \/ current_phase s <> work)
    by (destruct (current_phase s); auto; right; discriminate).
  repeat split.
  - destruct Hcases as [Hw | Hb];
      [rewrite (complete_work s Hw Hc) | rewrite (complete_break s Hb)]; reflexivity.
  - rewrite (complete_work s H Hc). reflexivity.
  - rewrite (complete_work s H Hc). cbv zeta. simpl. reflexivity.
  - rewrite complete_break; [reflexivity | destruct H as [H | H]; rewrite H; discriminate].
  - rewrite complete_break; [reflexivity | destruct H as [H | H]; rewrite H; discriminate].
  - destruct Hcases as [Hw | Hb];
      [rewrite (complete_work s Hw Hc) | rewrite (complete_break s Hb)];
      cbv zeta; simpl; [destruct (_ mod _ =? 0) |]; reflexivity.
  - destruct Hcases as [Hw | Hb];
      [rewrite (complete_work s Hw Hc) | rewrite (complete_break s Hb)]; reflexivity.
  - intros Hr Hz Ht Hq. unfold run. cbn [fold_left].
    rewrite tick_at_zero by (auto; lia).
    unfold step, root_after. cbn [after_queue set_after_queue set_timer_threads].
    rewrite Hq, Ht. cbn [app pred run_callback].
    destruct Hcases as [Hw | Hb].
    + rewrite (complete_work s Hw Hc). rewrite complete_work by (simpl; auto).
      destruct s; simpl in *; subst; reflexivity.
    + rewrite (complete_break s Hb). rewrite complete_break by (simpl; auto).
      destruct s; simpl in *; subst; reflexivity.
  - intros H4 Hw H0 n.
    destruct (full_cycle_iter s n Hw Hc) as (Hp & Hn & Ht).
    unfold complete. rewrite complete_work by (auto; rewrite Ht; exact Hc).
    cbv zeta. simpl. rewrite Hn, Ht, H4, H0.
    replace (0 + Z.of_nat n + 1) with (Z.of_nat (S n)) by lia. reflexivity.
Qed.

Lemma C1_phase_transition_witness :
  let s := run (Start :: repeat Tick 1500) classic_app in
  cycles_before_long_break (current_technique s) <> 0 /\
  snd (handle_timer_complete s) = None.
Proof.
  intro s.
  assert (H : cycles_before_long_break (current_technique s) <> 0)
    by (vm_compute; discriminate).
  exact (conj H (proj1 (C1_phase_transition s H))).
Defined.

(** ** The countdown *)

Lemma run_cons (e : event) (es : list event) (s : PomodoroApp) :
  run (e :: es) s = run es (step e s).
Proof. reflexivity. Qed.

Lemma run_app (es1 es2 : list event) (s : PomodoroApp) :
  run (es1 ++ es2) s = run es2 (run es1 s).
Proof. unfold run. apply fold_left_app. Qed.

(** A pass of a thread while the timer runs unpaused and time is left
    takes one second off and asks for a refresh of the label. *)
Lemma tick_running (s : PomodoroApp) :
  Running s -> 0 < remaining_time s -> timer_threads s <> O ->
  step Tick s = root_after cb_update_display (set_remaining_time s (remaining_time s - 1)).
Proof.
  intros [Hr Hp] Hz Ht. unfold step, run_timer_step.
  destruct (timer_threads s); [contradiction |].
  rewrite Hr, Hp. destruct (Z.ltb_spec 0 (remaining_time s)); [reflexivity | lia].
Qed.

(** A pass of a thread while the timer is paused changes no timer
    attribute. *)
Lemma tick_paused (s : PomodoroApp) :
  timer_paused s = true ->
  timer_state (step Tick s) = timer_state s /\
  (pending_completions s <= pending_completions (step Tick s))%nat.
Proof.
  intros Hp. unfold step, run_timer_step, pending_completions.
  destruct (timer_threads s); [split; [reflexivity | lia] |].
  rewrite Hp. destruct (timer_running s) eqn:Er, (0 <? remaining_time s); simpl;
    rewrite ?Er; simpl; rewrite ?filter_app, ?length_app; simpl;
    split; try reflexivity; lia.
Qed.

Lemma ticks_paused (n : nat) (s : PomodoroApp) :
  timer_paused s = true ->
  timer_state (run (repeat Tick n) s) = timer_state s.
Proof.
  revert s. induction n as [| n IH]; intros s Hp; [reflexivity |].
  cbn [repeat]. rewrite run_cons.
  destruct (tick_paused s Hp) as [Hs _].
  rewrite IH; [exact Hs |].
  unfold timer_state in Hs. congruence.
Qed.

(** [n] passes of the threads, with at least [n] seconds left, take
    exactly [n] seconds off; nothing else of the timer changes and no
    completion is asked for. *)
Lemma ticks_countdown (n : nat) (s : PomodoroApp) :
  Running s -> timer_threads s <> O -> Z.of_nat n <= remaining_time s ->
  let s' := run (repeat Tick n) s in
  remaining_time s' = remaining_time s - Z.of_nat n /\
  Running s' /\
  current_phase s' = current_phase s /\
  completed_cycles s' = completed_cycles s /\
  timer_threads s' = timer_threads s /\
  pending_completions s' = pending_completions s /\
  notifications s' = notifications s.
Proof.
  revert s. induction n as [| n IH]; intros s Hr Ht Hn.
  - simpl. repeat split; try apply Hr; lia.
  - cbn [repeat]. rewrite run_cons. cbv zeta.
    rewrite (tick_running s Hr) by (auto; lia).
    set (s1 := root_after _ _).
    assert (H1 : Running s1) by exact Hr.
    destruct (IH s1 H1) as (Ha & Hb & Hc & Hd & He & Hf & Hg);
      [exact Ht | subst s1; simpl; lia |].
    rewrite Ha, Hc, Hd, He, Hf, Hg. subst s1. unfold pending_completions. simpl.
    rewrite filter_app, length_app. simpl. repeat split; try apply Hb; lia.
Qed.

(** With a single thread and no completion waiting, the thread that
    finds the time used up asks for one completion and ends: no thread is
    left that could ask again. *)
Lemma single_loop_completes_once (s : PomodoroApp) :
  timer_running s = true -> remaining_time s <= 0 ->
  timer_threads s = 1%nat -> pending_completions s = O ->
  pending_completions (step Tick s) = 1%nat /\
  timer_threads (step Tick s) = O /\
  forall n : nat, run (repeat Tick n) (step Tick s) = step Tick s.
Proof.
  intros Hr Hz Ht Hq. rewrite tick_at_zero by (auto; lia).
  unfold pending_completions in *. simpl. rewrite filter_app, length_app, Hq, Ht.
  repeat split. induction n as [| n IH]; [reflexivity |].
  cbn [repeat]. rewrite run_cons. exact IH.
Qed.

(** ** What every state maintains *)

Lemma start_timer_consistent (s : PomodoroApp) : consistent (start_timer s).
Proof.
  unfold consistent, start_timer.
  destruct (timer_running s && timer_paused s) eqn:E; simpl;
    repeat split; try discriminate.
  apply andb_prop in E. tauto.
Qed.

Lemma pause_timer_consistent (s : PomodoroApp) : consistent s -> consistent (pause_timer s).
Proof.
  unfold consistent, pause_timer. intros (H1 & H2 & H3).
  destruct (timer_running s) eqn:Er, (timer_paused s) eqn:Ep; simpl;
    rewrite ?Er; repeat split; auto; discriminate.
Qed.

Lemma reset_timer_consistent (s : PomodoroApp) : consistent (reset_timer s).
Proof. unfold consistent. simpl. repeat split; auto; discriminate. Qed.

(** [update_display] sets the label and the bar, nothing else. *)
Lemma update_display_sets (s : PomodoroApp) :
  exists d v, fst (update_display s) = set_progress (set_time_display s d) v.
Proof.
  unfold update_display. destruct (_ && _).
  - cbv zeta. destruct (_ =? 0).
    + exists (remaining_time s / 60, remaining_time s mod 60), (progress s).
      destruct s. reflexivity.
    + eexists. eexists. reflexivity.
  - eexists. eexists. reflexivity.
Qed.

(** [on_technique_changed] sets the current technique, the label, the
    bar and the cycle label, nothing else. *)
Lemma on_technique_changed_sets (n : string) (s : PomodoroApp) (t : Technique) :
  find (fun t => String.eqb (name t) n) (techniques s) = Some t ->
  exists d v c,
    fst (on_technique_changed n s) =
      set_cycle_var (set_progress (set_time_display (set_current_technique s t) d) v) c.
Proof.
  intros H. unfold on_technique_changed. rewrite H.
  destruct (update_display_sets (set_current_technique s t)) as (d & v & E).
  destruct (update_display (set_current_technique s t)) as [s1 [e |]];
    simpl in E; subst s1.
  - exists d, v, (cycle_var s). destruct s. reflexivity.
  - eexists. eexists. eexists. reflexivity.
Qed.

Lemma update_display_flags (s : PomodoroApp) :
  timer_state (fst (update_display s)) = timer_state s /\
  start_button (fst (update_display s)) = start_button s /\
  pause_button (fst (update_display s)) = pause_button s /\
  techniques (fst (update_display s)) = techniques s /\
  current_technique (fst (update_display s)) = current_technique s.
Proof.
  destruct (update_display_sets s) as (d & v & ->). repeat split.
Qed.

Lemma handle_timer_complete_flags (s : PomodoroApp) :
  let s' := fst (handle_timer_complete s) in
  timer_running s' = timer_running s /\ timer_paused s' = timer_paused s /\
  start_button s' = start_button s /\ pause_button s' = pause_button s /\
  techniques s' = techniques s /\ current_technique s' = current_technique s.
Proof.
  unfold handle_timer_complete. simpl.
  destruct (current_phase s); simpl; repeat split;
    destruct (_ =? 0); simpl; try reflexivity; destruct (_ =? 0); reflexivity.
Qed.

Lemma step_consistent (e : event) (s : PomodoroApp) :
  consistent s -> consistent (step e s).
Proof.
  intros H. destruct e; unfold step, click.
  - destruct (start_button s); [apply start_timer_consistent | exact H].
  - destruct (pause_button s); [apply pause_timer_consistent, H | exact H].
  - destruct (reset_button s); [apply reset_timer_consistent | exact H].
  - destruct (find (fun t => String.eqb (name t) selected) (techniques s)) as [t |] eqn:E.
    + destruct (on_technique_changed_sets selected s t E) as (d & v & c & ->). exact H.
    + unfold on_technique_changed. rewrite E. exact H.
  - destruct (timer_threads s); [exact H |].
    unfold run_timer_step.
    destruct (timer_running s && (0 <? remaining_time s));
      [destruct (negb (timer_paused s)) |
       destruct (timer_running (set_timer_threads s _))]; exact H.
  - destruct (after_queue s) as [| c q]; [exact H |].
    destruct c; unfold run_callback.
    + destruct (update_display_sets (set_after_queue s q)) as (d & v & ->). exact H.
    + unfold consistent.
      destruct (handle_timer_complete_flags (set_after_queue s q)) as (Hr & Hpa & Hb & Hp & _).
      rewrite Hr, Hpa, Hb, Hp. exact H.
Qed.

Lemma new_app_consistent (t : Technique) (ts : list Technique) : consistent (new_app t ts).
Proof. unfold consistent. simpl. repeat split; auto; discriminate. Qed.

Lemma run_consistent (es : list event) (s : PomodoroApp) :
  consistent s -> consistent (run es s).
Proof.
  revert s. induction es as [| e es IH]; intros s H; [exact H |].
  rewrite run_cons. apply IH, step_consistent, H.
Qed.

Lemma reachable_consistent (ts : list Technique) (s : PomodoroApp) :
  reachable ts s -> consistent s.
Proof.
  intros (s0 & es & Hi & ->). apply run_consistent.
  destruct ts as [| t ts']; [discriminate |].
  injection Hi as <-. apply new_app_consistent.
Qed.

Lemma update_display_well_formed (s : PomodoroApp) :
  well_formed s -> well_formed (fst (update_display s)).
Proof. destruct (update_display_sets s) as (d & v & ->). exact (fun H => H). Qed.

Lemma handle_timer_complete_well_formed (s : PomodoroApp) :
  well_formed s -> well_formed (fst (handle_timer_complete s)).
Proof.
  unfold well_formed, sound, handle_timer_complete. intros (Hts & Ht & Hr). simpl.
  destruct (current_phase s); simpl;
    try (destruct (_ =? 0); simpl; [| destruct (_ =? 0); simpl]);
    repeat split; try assumption; lia.
Qed.

Lemma step_well_formed (e : event) (s : PomodoroApp) :
  well_formed s -> well_formed (step e s).
Proof.
  intros H. destruct e; unfold step, click.
  - destruct (start_button s); [| exact H].
    destruct H as (Hts & Ht & Hr). unfold well_formed, sound, start_timer in *.
    destruct (_ && _); simpl; repeat split; try assumption; lia.
  - destruct (pause_button s); [| exact H].
    unfold pause_timer. destruct (_ && _); exact H.
  - destruct (reset_button s); [| exact H].
    apply update_display_well_formed. exact H.
  - destruct (find (fun t => String.eqb (name t) selected) (techniques s)) as [t |] eqn:E.
    + destruct (on_technique_changed_sets selected s t E) as (d & v & c & ->).
      destruct H as (Hts & Ht & Hr). apply find_some in E as [Hin _].
      assert (Hs : sound t) by (rewrite Forall_forall in Hts; apply Hts, Hin).
      split; [exact Hts | split; [exact Hs | exact Hr]].
    + unfold on_technique_changed. rewrite E. exact H.
  - destruct (timer_threads s); [exact H |].
    unfold run_timer_step.
    destruct (timer_running s && (0 <? remaining_time s)) eqn:E.
    + destruct (negb (timer_paused s)); [| exact H].
      apply andb_prop in E as [_ E]. apply Z.ltb_lt in E.
      destruct H as (Hts & Ht & Hr).
      split; [exact Hts | split; [exact Ht | simpl; lia]].
    + destruct (timer_running (set_timer_threads s _)); exact H.
  - destruct (after_queue s) as [| c q]; [exact H |].
    destruct c; unfold run_callback.
    + apply update_display_well_formed. exact H.
    + apply handle_timer_complete_well_formed. exact H.
Qed.

(** The remaining time is never negative: see [well_formed]. *)
Lemma reachable_well_formed (ts : list Technique) (s : PomodoroApp) :
  Forall sound ts -> reachable ts s -> well_formed s.
Proof.
  intros Hts (s0 & es & Hi & ->).
  assert (H0 : well_formed s0).
  { destruct ts as [| t ts']; [discriminate |]. injection Hi as <-.
    apply update_display_well_formed.
    split; [exact Hts | split; [exact (Forall_inv Hts) | simpl; lia]]. }
  clear Hi. revert s0 H0. induction es as [| e es IH]; intros s0 H0; [exact H0 |].
  rewrite run_cons. apply IH, step_well_formed, H0.
Qed.

(** ** Two threads after Start, Reset, Start *)

(** C2: the run that breaks the claim.  Start, Reset and Start again
    before the first thread wakes up leave two [run_timer] threads, since
    the second Start sets again the flag that the first thread tests.
    Once the 1500 seconds of the work phase are counted down, each of the
    two threads finds the time used up and asks for
    [handle_timer_complete]: the end of the one work phase is handled
    twice, the second time as the end of a break of which no second was
    counted, and two threads count the next phase down. *)
Theorem C2_two_threads_complete_twice :
  let s := run restart_trace classic_app in
  (Running s /\ remaining_time s = 0 /\ current_phase s = work /\
   timer_threads s = 2%nat /\ pending_completions s = O) /\
  pending_completions (run [Tick; Tick] s) = 2%nat /\
  let s' := run (repeat Dispatch 1503) (run [Tick; Tick] s) in
  notifications s' =
    ["Work period complete! Time for a break.";
     "Break time complete! Back to work."] /\
  current_phase s' = work /\ completed_cycles s' = 1 /\
  remaining_time s' = 1500 /\ timer_threads s' = 2%nat /\ after_queue s' = [].
Proof. vm_compute. repeat split. Qed.

(** ** Start, pause and reset *)

Lemma start_timer_paused (s : PomodoroApp) :
  Paused s ->
  start_timer s = set_pause_button (set_start_button (set_timer_paused s false) false) true "Pause".
Proof. intros [Hr Hp]. unfold start_timer. rewrite Hr, Hp. reflexivity. Qed.

Lemma start_timer_new (s : PomodoroApp) :
  timer_running s && timer_paused s = false ->
  Running (start_timer s) /\
  current_phase (start_timer s) = work /\
  remaining_time (start_timer s) = work_time (current_technique s) * 60 /\
  completed_cycles (start_timer s) = completed_cycles s /\
  timer_threads (start_timer s) = S (timer_threads s).
Proof. intros H. unfold start_timer, Running. rewrite H. simpl. repeat split. Qed.

(** C3, as the code has it.  From Paused, [start_timer] resumes: the
    phase, the remaining time and the cycle count are kept and no thread
    is started.  From the state that [__init__] or [reset_timer] leaves it
    starts a work phase of [work_time * 60] seconds with no completed
    cycle and starts a thread.  While the timer runs unpaused the Start
    button is disabled, so that a click on it changes nothing; the method
    itself, called in such a state, starts the work phase anew and starts
    one more thread. *)
Theorem C3_start_timer_contract :
  (forall s : PomodoroApp, Paused s ->
     Running (start_timer s) /\
     current_phase (start_timer s) = current_phase s /\
     remaining_time (start_timer s) = remaining_time s /\
     completed_cycles (start_timer s) = completed_cycles s /\
     timer_threads (start_timer s) = timer_threads s) /\
  (forall s0 : PomodoroApp,
     (exists t ts, s0 = new_app t ts) \/ (exists s, s0 = reset_timer s) ->
     Running (start_timer s0) /\
     current_phase (start_timer s0) = work /\
     remaining_time (start_timer s0) = work_time (current_technique s0) * 60 /\
     completed_cycles (start_timer s0) = 0 /\
     timer_threads (start_timer s0) = S (timer_threads s0)) /\
  (forall (ts : list Technique) (s : PomodoroApp),
     reachable ts s -> Running s -> start_button s = false /\ step Start s = s) /\
  (forall s : PomodoroApp, Running s ->
     Running (start_timer s) /\
     current_phase (start_timer s) = work /\
     remaining_time (start_timer s) = work_time (current_technique s) * 60 /\
     completed_cycles (start_timer s) = completed_cycles s /\
     timer_threads (start_timer s) = S (timer_threads s)).
Proof.
  repeat apply conj.
  - intros s Hp. rewrite (start_timer_paused s Hp). destruct Hp as [Hr _].
    unfold Running. simpl. auto.
  - intros s0 H.
    assert (Hi : timer_running s0 = false /\ completed_cycles s0 = 0).
    { destruct H as [(t & ts & ->) | (s & ->)]; split; try reflexivity;
        unfold reset_timer, update_display; simpl; reflexivity. }
    destruct Hi as [Hr Hc].
    destruct (start_timer_new s0) as (H1 & H2 & H3 & H4 & H5);
      [rewrite Hr; reflexivity |].
    split; [exact H1 | split; [exact H2 | split; [exact H3 | split; [| exact H5]]]].
    rewrite H4. exact Hc.
  - intros ts s Hre [Hr Hp].
    destruct (reachable_consistent ts s Hre) as (H1 & _).
    assert (Hb : start_button s = false).
    { destruct (start_button s); [| reflexivity].
      destruct (H1 eq_refl); congruence. }
    split; [exact Hb |]. unfold step, click. rewrite Hb. reflexivity.
  - intros s [Hr Hp]. apply start_timer_new. rewrite Hp. apply andb_false_r.
Qed.

Lemma C3_start_timer_contract_witness :
  let s := run [Start; Tick; Pause] classic_app in
  Paused s /\ remaining_time (start_timer s) = 1499.
Proof.
  intro s.
  assert (H : Paused s) by (split; reflexivity).
  split; [exact H |].
  exact (proj1 (proj2 (proj2 (proj1 C3_start_timer_contract s H)))).
Defined.

(** C3 fails as stated: [start_timer], called while the timer runs and
    is not paused, changes the timer. *)
Lemma C3_start_while_running_restarts :
  let s := run [Start; Tick] classic_app in
  Running s /\ timer_state (start_timer s) <> timer_state s /\
  remaining_time s = 1499 /\ remaining_time (start_timer s) = 1500 /\
  timer_threads s = 1%nat /\ timer_threads (start_timer s) = 2%nat.
Proof. vm_compute. repeat split; discriminate. Qed.

Lemma pause_timer_running (s : PomodoroApp) :
  Running s ->
  pause_timer s =
    set_start_button (set_pause_button (set_timer_paused s true) (pause_button s) "Resume") true.
Proof. intros [Hr Hp]. unfold pause_timer. rewrite Hr, Hp. reflexivity. Qed.

Lemma pause_timer_not_running (s : PomodoroApp) :
  timer_running s && negb (timer_paused s) = false ->
  pause_timer s =
    set_start_button (set_pause_button (set_timer_paused s false) (pause_button s) "Pause") false.
Proof. intros H. unfold pause_timer. rewrite H. reflexivity. Qed.

(** A paused timer with time left and no completion waiting: a pass of
    a thread and a callback of the Tk loop leave it as it is. *)
Lemma paused_step (s : PomodoroApp) (e : event) :
  Paused s -> 0 < remaining_time s -> pending_completions s = O ->
  e = Tick \/ e = Dispatch ->
  timer_state (step e s) = timer_state s /\ pending_completions (step e s) = O.
Proof.
  intros [Hr Hp] Hz Hq [-> | ->]; unfold step.
  - destruct (timer_threads s); [split; [reflexivity | exact Hq] |].
    unfold run_timer_step. rewrite Hr, Hp.
    destruct (Z.ltb_spec 0 (remaining_time s)); [| lia].
    split; [reflexivity | exact Hq].
  - destruct (after_queue s) as [| c q] eqn:Eq; [split; [reflexivity | exact Hq] |].
    unfold pending_completions in Hq. rewrite Eq in Hq.
    destruct c; [| discriminate]. unfold run_callback.
    destruct (update_display_sets (set_after_queue s q)) as (d & v & ->).
    split; [reflexivity | exact Hq].
Qed.

Lemma paused_run (es : list event) (s : PomodoroApp) :
  Paused s -> 0 < remaining_time s -> pending_completions s = O ->
  Forall (fun e => e = Tick \/ e = Dispatch) es ->
  timer_state (run es s) = timer_state s /\ pending_completions (run es s) = O.
Proof.
  intros Hp Hz Hq Hes. revert s Hp Hz Hq.
  induction Hes as [| e es He _ IH]; intros s Hp Hz Hq; [split; [reflexivity | exact Hq] |].
  rewrite run_cons.
  destruct (paused_step s e Hp Hz Hq He) as [Hs Hq'].
  assert (E := Hs). unfold timer_state in E. injection E as E1 E2 E3 _ _.
  destruct Hp as [Hr Hpa].
  destruct (IH (step e s)) as [H1 H2];
    [split; congruence | rewrite E3; exact Hz | exact Hq' |].
  split; [rewrite H1; exact Hs | exact H2].
Qed.

(** C4, as the code has it.  From a running, unpaused state
    [pause_timer] moves to Paused and keeps the phase, the remaining time
    and the cycle count.  While the timer is paused with time left and no
    completion waits in the Tk loop, no pass of a thread and no callback
    of the Tk loop changes a timer attribute, and [start_timer] then
    resumes the phase with the remaining time it was paused at.  A pass
    of a thread alone never changes a timer attribute of a paused timer.
    When the timer does not run at all, [pause_timer] leaves the timer
    attributes as they are, and the Pause button is disabled.  On a paused
    timer [pause_timer] is not without effect: it resumes. *)
Theorem C4_pause_timer_contract :
  (forall s : PomodoroApp, Running s ->
     Paused (pause_timer s) /\
     current_phase (pause_timer s) = current_phase s /\
     remaining_time (pause_timer s) = remaining_time s /\
     completed_cycles (pause_timer s) = completed_cycles s) /\
  (forall (s : PomodoroApp) (es : list event),
     Paused s -> 0 < remaining_time s -> pending_completions s = O ->
     Forall (fun e => e = Tick \/ e = Dispatch) es ->
     timer_state (run es s) = timer_state s) /\
  (forall (s : PomodoroApp) (es : list event),
     Running s -> 0 < remaining_time s -> pending_completions s = O ->
     Forall (fun e => e = Tick \/ e = Dispatch) es ->
     let s' := start_timer (run es (pause_timer s)) in
     Running s' /\ current_phase s' = current_phase s /\
     remaining_time s' = remaining_time s /\
     completed_cycles s' = completed_cycles s) /\
  (forall (s : PomodoroApp) (n : nat), timer_paused s = true ->
     timer_state (run (repeat Tick n) s) = timer_state s) /\
  (forall s : PomodoroApp, Idle s -> timer_paused s = false ->
     timer_state (pause_timer s) = timer_state s) /\
  (forall (ts : list Technique) (s : PomodoroApp),
     reachable ts s -> Idle s ->
     timer_paused s = false /\ pause_button s = false /\ step Pause s = s) /\
  (forall s : PomodoroApp, Paused s ->
     Running (pause_timer s) /\
     current_phase (pause_timer s) = current_phase s /\
     remaining_time (pause_timer s) = remaining_time s /\
     completed_cycles (pause_timer s) = completed_cycles s).
Proof.
  repeat apply conj.
  - intros s Hr. rewrite (pause_timer_running s Hr). destruct Hr as [Hr _].
    unfold Paused. simpl. auto.
  - intros s es Hp Hz Hq Hes. apply (paused_run es s Hp Hz Hq Hes).
  - intros s es Hr Hz Hq Hes. cbv zeta.
    set (p := pause_timer s).
    assert (Hp : timer_state p = (true, true, remaining_time s, current_phase s,
                                  completed_cycles s)).
    { subst p. rewrite (pause_timer_running s Hr). destruct Hr as [Hr _].
      unfold timer_state. simpl. rewrite Hr. reflexivity. }
    assert (Hpq : pending_completions p = O)
      by (subst p; rewrite (pause_timer_running s Hr); exact Hq).
    assert (Ht : timer_state (run es p) = timer_state p).
    { unfold timer_state in Hp. injection Hp as P1 P2 P3 _ _.
      apply paused_run; [split; assumption | rewrite P3; exact Hz | exact Hpq | exact Hes]. }
    rewrite Hp in Ht. unfold timer_state in Ht. injection Ht as H1 H2 H3 H4 H5.
    rewrite start_timer_paused by (split; assumption).
    unfold Running. simpl. auto.
  - intros s n Hp. apply ticks_paused, Hp.
  - intros s Hi Hp. rewrite pause_timer_not_running by (rewrite Hi; reflexivity).
    unfold timer_state. simpl. rewrite Hp. reflexivity.
  - intros ts s Hre Hi.
    destruct (reachable_consistent ts s Hre) as (_ & H2 & H3).
    assert (Hb : pause_button s = false).
    { destruct (pause_button s); [| reflexivity].
      unfold Idle in Hi. rewrite (H2 eq_refl) in Hi. discriminate. }
    repeat split; [exact (H3 Hi) | exact Hb |].
    unfold step, click. rewrite Hb. reflexivity.
  - intros s [Hr Hp].
    rewrite pause_timer_not_running by (rewrite Hr, Hp; reflexivity).
    unfold Running. simpl. auto.
Qed.

Lemma C4_pause_timer_contract_witness :
  let s := run [Start; Tick] classic_app in
  let es := [Tick; Dispatch; Tick; Tick; Dispatch] in
  (Running s /\ 0 < remaining_time s /\ pending_completions s = O) /\
  remaining_time (start_timer (run es (pause_timer s))) = 1499.
Proof.
  intros s es.
  assert (Hr : Running s) by (split; reflexivity).
  assert (Hz : 0 < remaining_time s) by reflexivity.
  assert (Hq : pending_completions s = O) by reflexivity.
  assert (Hes : Forall (fun e => e = Tick \/ e = Dispatch) es)
    by (repeat constructor; auto).
  split; [auto |].
  exact (proj1 (proj2 (proj2
    (proj1 (proj2 (proj2 C4_pause_timer_contract)) s es Hr Hz Hq Hes)))).
Defined.

(** C4 fails as stated: Paused is not a running state, and [pause_timer]
    there is not without effect: the timer resumes and the next pass of
    the thread takes a second off. *)
Lemma C4_pause_while_paused_resumes :
  let s := run [Start; Tick; Pause] classic_app in
  Paused s /\ timer_state (pause_timer s) <> timer_state s /\
  timer_paused (step Pause s) = false /\
  remaining_time s = 1499 /\ remaining_time (run [Pause; Tick] s) = 1498.
Proof. vm_compute. repeat split; discriminate. Qed.

(** C5: [__init__] leaves a timer that does not run, with no completed
    cycle, and the time on display is the work time of the technique, in
    seconds.  [reset_timer], from any state, leads back to it: the timer
    does not run and is not paused, the phase is ["ready"], no cycle is
    counted and the time on display is the work time of the current
    technique; flags, count and time on display are those of the new
    application with that technique. *)
Theorem C5_created_and_reset :
  (forall (t : Technique) (ts : list Technique),
     let s := new_app t ts in
     Idle s /\ timer_paused s = false /\ completed_cycles s = 0 /\
     displayed_seconds s = work_time t * 60) /\
  (forall s : PomodoroApp,
     let s' := reset_timer s in
     Idle s' /\ timer_paused s' = false /\ current_phase s' = ready /\
     completed_cycles s' = 0 /\
     displayed_seconds s' = work_time (current_technique s) * 60 /\
     current_technique s' = current_technique s) /\
  (forall (s : PomodoroApp) (ts : list Technique),
     idle_view (reset_timer s) = idle_view (new_app (current_technique s) ts)).
Proof.
  split; [| split].
  - intros t ts. unfold Idle, displayed_seconds. simpl. repeat split; lia.
  - intros s. unfold Idle, displayed_seconds, reset_timer, update_display. simpl.
    repeat split; lia.
  - intros s ts. unfold idle_view, displayed_seconds, reset_timer, new_app,
      update_display. simpl. reflexivity.
Qed.

(** The time on display of a stopped timer is not read from the attribute
    [remaining_time]: the attribute is 0 in the new application and
    [reset_timer] does not assign it. *)
Remark remaining_time_is_not_on_display :
  remaining_time classic_app = 0 /\
  displayed_seconds classic_app = 1500 /\
  let s := reset_timer (run [Start; Tick] classic_app) in
  remaining_time s = 1499 /\ displayed_seconds s = 1500.
Proof. vm_compute. repeat split. Qed.

(** ** Loading and saving the techniques *)

Lemma technique_of_data_read (t_data : pyval) (t : LoadedTechnique) :
  technique_of_data t_data = Ok t -> read_from t_data t.
Proof.
  unfold technique_of_data, read_from, optional.
  destruct t_data as [| | | | | | items]; try discriminate. simpl.
  destruct (dict_get "name" items) as [n |] eqn:En; [| discriminate].
  destruct (dict_get "work_time" items) as [w |] eqn:Ew; [| discriminate].
  destruct (dict_get "break_time" items) as [b |] eqn:Eb; [| discriminate].
  simpl.
  destruct (dict_get "long_break_time" items) as [l |] eqn:El;
    destruct (dict_get "cycles_before_long_break" items) as [c |] eqn:Ec;
    destruct (dict_get "description" items) as [d |] eqn:Ed;
    simpl; intros [= <-]; exists items; simpl;
    repeat split; congruence.
Qed.

Lemma techniques_of_data_read (l : list pyval) (ts : list LoadedTechnique) :
  techniques_of_data l = Ok ts -> Forall2 read_from l ts.
Proof.
  revert ts. induction l as [| t_data l IH]; intros ts; simpl.
  - intros [= <-]. constructor.
  - destruct (technique_of_data t_data) as [t |] eqn:Et; [| discriminate]. simpl.
    destruct (techniques_of_data l) as [ts' |]; [| discriminate]. simpl.
    intros [= <-]. constructor; [apply technique_of_data_read, Et | apply IH; reflexivity].
Qed.

(** C7: without a file [load_techniques] returns exactly three
    techniques and shows no dialog: Classic Pomodoro 25/5, Long Focus
    50/10 and Short Burst 15/3, each with a long break of 15 minutes, 4
    cycles and its description, which is not empty.  Every record that it
    reads from a file has 15, 4 and the empty string where the dict has no
    ["long_break_time"], ["cycles_before_long_break"] or ["description"],
    and the value of the dict where it has one. *)
Theorem C7_defaults_and_optional_fields :
  load_techniques NoFile =
    (Ok [ mkTechnique (PStr "Classic Pomodoro") (PInt 25) (PInt 5) (PInt 15) (PInt 4)
            (PStr "The classic Pomodoro technique with 25-minute work sessions and 5-minute breaks.");
          mkTechnique (PStr "Long Focus") (PInt 50) (PInt 10) (PInt 15) (PInt 4)
            (PStr "Longer focus sessions with 50-minute work periods and 10-minute breaks.");
          mkTechnique (PStr "Short Burst") (PInt 15) (PInt 3) (PInt 15) (PInt 4)
            (PStr "Short bursts of intense focus with 15-minute work sessions and 3-minute breaks.") ],
     []) /\
  (forall ts, fst (load_techniques NoFile) = Ok ts ->
     List.length ts = 3%nat /\
     Forall (fun t : LoadedTechnique =>
               exists d, description t = PStr d /\ d <> "") ts) /\
  (forall (v : pyval) (ts : list LoadedTechnique),
     load_techniques (Document v) = (Ok ts, []) ->
     exists l, iterate v = Ok l /\ Forall2 read_from l ts).
Proof.
  repeat apply conj.
  - reflexivity.
  - intros ts [= <-]. split; [reflexivity |].
    repeat constructor; eexists; (split; [reflexivity | discriminate]).
  - intros v ts. unfold load_techniques, read_techniques. simpl.
    destruct (iterate v) as [l |] eqn:Ei; simpl; [| discriminate].
    destruct (techniques_of_data l) as [ts' |] eqn:Et; [| discriminate].
    intros [= <-]. exists l. split; [reflexivity | apply techniques_of_data_read, Et].
Qed.

Lemma C7_defaults_and_optional_fields_witness :
  let ts := [mkTechnique (PStr "Deep") (PInt 90) (PInt 20) (PInt 15) (PInt 4) (PStr "")] in
  load_techniques (Document missing_optional) = (Ok ts, []) /\
  exists l, iterate missing_optional = Ok l /\ Forall2 read_from l ts.
Proof.
  intro ts.
  assert (H : load_techniques (Document missing_optional) = (Ok ts, [])) by reflexivity.
  split; [exact H |].
  exact (proj2 (proj2 C7_defaults_and_optional_fields) missing_optional ts H).
Defined.

(** C8, as the code has it.  [load_techniques] never raises.  When the
    file exists and reading it raises, the error is shown in a dialog and
    the default list is returned, as it is when there is no file. *)
Theorem C8_load_failure_falls_back (f : file_state) (e : exn) :
  path_exists f = true -> read_techniques f = Raise e ->
  load_techniques f = (Ok (map as_loaded default_techniques), [load_failed e]) /\
  fst (load_techniques f) = fst (load_techniques NoFile).
Proof.
  intros Hx Hr. unfold load_techniques. rewrite Hx, Hr. split; reflexivity.
Qed.

Lemma C8_load_failure_falls_back_witness :
  path_exists (Unreadable JSONDecodeError) = true /\
  fst (load_techniques (Unreadable JSONDecodeError)) = fst (load_techniques NoFile).
Proof.
  assert (Hx : path_exists (Unreadable JSONDecodeError) = true) by reflexivity.
  assert (Hr : read_techniques (Unreadable JSONDecodeError) = Raise JSONDecodeError)
    by reflexivity.
  exact (conj Hx (proj2 (C8_load_failure_falls_back _ _ Hx Hr))).
Defined.

Lemma load_techniques_returns (f : file_state) :
  exists ts, fst (load_techniques f) = Ok ts.
Proof.
  unfold load_techniques. destruct (path_exists f); [| eexists; reflexivity].
  destruct (read_techniques f); eexists; reflexivity.
Qed.

(** C8 fails as stated: a file that cannot be decoded, and one that
    holds a number, make [load_techniques] return the default list; no
    error reaches the caller. *)
Lemma C8_unreadable_file_returns_defaults :
  fst (load_techniques (Unreadable JSONDecodeError)) = Ok (map as_loaded default_techniques) /\
  fst (load_techniques (Document (PInt 7))) = Ok (map as_loaded default_techniques) /\
  (forall e, fst (load_techniques (Unreadable JSONDecodeError)) <> Raise e).
Proof. repeat split. discriminate. Qed.

Lemma technique_of_saved (t : LoadedTechnique) :
  technique_of_data (technique_data t) = Ok t.
Proof. destruct t. reflexivity. Qed.

Lemma techniques_of_saved (ts : list LoadedTechnique) :
  techniques_of_data (map technique_data ts) = Ok ts.
Proof.
  induction ts as [| t ts IH]; [reflexivity |].
  cbn [map techniques_of_data]. rewrite technique_of_saved, IH. reflexivity.
Qed.

(** C9, as the code has it.  [save_techniques] creates the directory and
    then writes the file in place.  When nothing fails the whole list is
    in the file.  When [os.makedirs] fails the exception leaves the method
    and nothing has changed; when the file cannot be opened its content is
    as before; both failures inside the [try] block end in a dialog.  The
    file holds the content it had, or the whole list, or, after a failure
    of the write itself, a text cut short that cannot be decoded. *)
Theorem C9_save_in_place (ts : list LoadedTechnique) (flt : fault) (fs : filesystem) :
  let fs' := fst (fst (save_techniques ts flt fs)) in
  let dialogs := snd (fst (save_techniques ts flt fs)) in
  let raised := snd (save_techniques ts flt fs) in
  (flt = no_fault ->
     config_dir fs' = true /\ dialogs = [] /\ raised = None /\
     load_techniques (config_file fs') = (Ok ts, [])) /\
  (flt = makedirs_fails -> fs' = fs /\ raised = Some OSError) /\
  (flt = open_fails ->
     config_file fs' = config_file fs /\ dialogs = [save_failed] /\ raised = None) /\
  (flt = dump_fails ->
     path_exists (config_file fs') = true /\ dialogs = [save_failed] /\ raised = None /\
     read_techniques (config_file fs') = Raise JSONDecodeError) /\
  (config_file fs' = config_file fs \/
   config_file fs' = Document (PList (map technique_data ts)) \/
   flt = dump_fails).
Proof.
  destruct flt; cbv zeta; simpl; repeat split; try discriminate; auto.
  unfold load_techniques, read_techniques. simpl.
  rewrite techniques_of_saved. reflexivity.
Qed.

(** C9 fails as stated: when the write fails after the file was opened,
    the file holds neither what it held before nor the list. *)
Lemma C9_failed_write_leaves_neither :
  let ts := map as_loaded default_techniques in
  let fs := mkFs true (Document (PList [])) in
  let fs' := fst (fst (save_techniques ts dump_fails fs)) in
  config_file fs' <> config_file fs /\
  config_file fs' <> Document (PList (map technique_data ts)).
Proof. split; discriminate. Qed.

Lemma all_annotated_as_loaded (ts : list Technique) :
  all_annotated (map as_loaded ts) = Some ts.
Proof.
  induction ts as [| t ts IH]; [reflexivity |].
  cbn [map all_annotated]. rewrite IH. destruct t. reflexivity.
Qed.

(** C10: what [save_techniques] writes for a list of techniques,
    [load_techniques] reads back as the same list: the same records in
    the same order, every field with the value it had, and no dialog. *)
Theorem C10_load_after_save (ts : list Technique) (fs : filesystem) :
  let fs' := fst (fst (save_techniques (map as_loaded ts) no_fault fs)) in
  load_techniques (config_file fs') = (Ok (map as_loaded ts), []) /\
  all_annotated (map as_loaded ts) = Some ts.
Proof.
  cbv zeta. unfold load_techniques, read_techniques. simpl.
  rewrite techniques_of_saved, all_annotated_as_loaded. repeat split.
Qed.

(** ** The list of techniques is not empty *)

Lemma mark_deleted_live (idx : nat) (frames frames' : list technique_frame) :
  mark_deleted idx frames = Ok frames' ->
  (List.length (live frames) <= S (List.length (live frames')))%nat.
Proof.
  revert idx frames'. induction frames as [| f frames IH]; intros idx frames'.
  - destruct idx; discriminate.
  - destruct idx as [| i]; simpl.
    + intros [= <-]. unfold live. simpl. destruct (deleted f); simpl; lia.
    + destruct (mark_deleted i frames) as [rest |] eqn:E; [| discriminate]. simpl.
      intros [= <-]. specialize (IH i rest E). unfold live in *. simpl.
      destruct (deleted f); simpl; lia.
Qed.

(** The last technique cannot be deleted: the dialog shows the error and
    the frames stay as they are. *)
Lemma delete_last_rejected (idx : nat) (frames : list technique_frame) :
  (List.length (live frames) <= 1)%nat ->
  delete_technique_frame idx frames = Ok (frames, [at_least_one]).
Proof.
  intros H. unfold delete_technique_frame.
  destruct (Nat.leb_spec (List.length (live frames)) 1); [reflexivity | lia].
Qed.

Lemma delete_keeps_one (idx : nat) (frames frames' : list technique_frame) (ds : list dialog) :
  delete_technique_frame idx frames = Ok (frames', ds) ->
  live frames <> [] -> live frames' <> [].
Proof.
  unfold delete_technique_frame.
  destruct (Nat.leb_spec (List.length (live frames)) 1) as [Hle | Hgt].
  - intros [= <- _]. auto.
  - destruct (mark_deleted idx frames) as [rest |] eqn:E; [| discriminate]. simpl.
    intros [= <- _] _ Hnil. apply mark_deleted_live in E. rewrite Hnil in E.
    simpl in E. lia.
Qed.

Lemma edit_techniques_live (ts : list Technique) :
  ts <> [] -> updated_techniques (edit_techniques ts) = ts /\ live (edit_techniques ts) <> [].
Proof.
  intros H. unfold updated_techniques, edit_techniques, live.
  assert (E : filter (fun f => negb (deleted f)) (map (fun t => mkFrame t false) ts) =
              map (fun t => mkFrame t false) ts).
  { induction ts as [| t ts' IH]; [reflexivity |]. simpl. f_equal.
    destruct ts'; [reflexivity | apply IH; discriminate]. }
  rewrite E. split.
  - rewrite map_map. simpl. apply map_id.
  - destruct ts; [contradiction | discriminate].
Qed.

Lemma updated_techniques_not_empty (frames : list technique_frame) :
  live frames <> [] -> updated_techniques frames <> [].
Proof.
  unfold updated_techniques. destruct (live frames); [contradiction | discriminate].
Qed.

Lemma save_new_technique_not_empty (t : Technique) (ts : list Technique) :
  save_new_technique t ts <> [].
Proof. unfold save_new_technique. destruct ts; discriminate. Qed.

(** C6: the file that breaks the claim.  A file that holds the empty
    array (or the empty object, or the empty string) makes
    [load_techniques] return the empty list, without any dialog;
    [__init__] then raises on [self.techniques[0]]. *)
Theorem C6_empty_file_loads_empty_list :
  load_techniques (Document (PList [])) = (Ok [], []) /\
  load_techniques (Document (PDict [])) = (Ok [], []) /\
  load_techniques (Document (PStr "")) = (Ok [], []) /\
  startup (Document (PList [])) = Some (Raise IndexError).
Proof. repeat split. Qed.

(** * Further properties *)

(** ** The countdown and what the states maintain *)

(** X1: while the timer runs unpaused, [n] passes of the loop of
    [run_timer] with at least [n] seconds left take exactly [n] seconds
    off; the phase, the cycle count and the flags stay, nothing is shown
    and no completion is asked for. *)
Theorem X1_countdown_exact (s : PomodoroApp) (n : nat) :
  Running s -> timer_threads s <> O -> Z.of_nat n <= remaining_time s ->
  let s' := run (repeat Tick n) s in
  remaining_time s' = remaining_time s - Z.of_nat n /\
  Running s' /\
  current_phase s' = current_phase s /\
  completed_cycles s' = completed_cycles s /\
  pending_completions s' = pending_completions s /\
  notifications s' = notifications s.
Proof.
  intros Hr Ht Hn.
  destruct (ticks_countdown n s Hr Ht Hn) as (H1 & H2 & H3 & H4 & _ & H6 & H7).
  cbv zeta. auto 10.
Qed.

Lemma X1_countdown_exact_witness :
  let s := run [Start] classic_app in
  Running s /\ remaining_time (run (repeat Tick 90) s) = 1410.
Proof.
  intro s.
  assert (Hr : Running s) by (split; reflexivity).
  assert (Ht : timer_threads s <> O) by discriminate.
  assert (Hn : Z.of_nat 90 <= remaining_time s) by (vm_compute; discriminate).
  split; [exact Hr |].
  exact (proj1 (X1_countdown_exact s 90 Hr Ht Hn)).
Defined.

Lemma step_steady (ts : list Technique) (e : event) (s : PomodoroApp) :
  steady ts s -> steady ts (step e s).
Proof.
  unfold steady. intros (H1 & H2 & H3). destruct e; unfold step, click.
  - destruct (start_button s); [| auto]. unfold start_timer.
    destruct (_ && _); simpl; auto.
  - destruct (pause_button s); [| auto]. unfold pause_timer.
    destruct (_ && _); simpl; auto.
  - destruct (reset_button s); [| auto]. unfold reset_timer, update_display.
    simpl. repeat split; auto; lia.
  - destruct (find (fun t => String.eqb (name t) selected) (techniques s)) as [t |] eqn:E.
    + destruct (on_technique_changed_sets selected s t E) as (d & v & c & ->).
      apply find_some in E as [Hin _]. simpl. rewrite <- H1. auto.
    + unfold on_technique_changed. rewrite E. auto.
  - destruct (timer_threads s); [auto |]. unfold run_timer_step.
    destruct (_ && _); [destruct (negb _) | destruct (timer_running _)]; simpl; auto.
  - destruct (after_queue s) as [| c q]; [auto |]. destruct c; unfold run_callback.
    + destruct (update_display_sets (set_after_queue s q)) as (d & v & ->). simpl. auto.
    + unfold handle_timer_complete. simpl.
      destruct (current_phase s); simpl;
        try (destruct (_ =? 0); simpl; [| destruct (_ =? 0); simpl]);
        repeat split; auto; lia.
Qed.

(** X2: in every state that the application reaches from a list of
    techniques with durations that are not negative, the remaining time
    and the count of completed cycles are not negative, the list of
    techniques is the one it started with and the current technique is
    one of its elements. *)
Theorem X2_reachable_states (ts : list Technique) (s : PomodoroApp) :
  Forall sound ts -> reachable ts s ->
  0 <= remaining_time s /\ 0 <= completed_cycles s /\
  techniques s = ts /\ In (current_technique s) ts.
Proof.
  intros Hs Hre.
  destruct (reachable_well_formed ts s Hs Hre) as (_ & _ & Hrem).
  destruct Hre as (s0 & es & Hi & ->).
  assert (H0 : steady ts s0).
  { destruct ts as [| t ts']; [discriminate |]. injection Hi as <-.
    unfold steady. simpl. repeat split; auto; lia. }
  assert (H : steady ts (run es s0)).
  { clear Hi Hrem. revert s0 H0. induction es as [| e es IH]; intros s0 H0; [exact H0 |].
    rewrite run_cons. apply IH, step_steady, H0. }
  destruct H as (H1 & H2 & H3). auto.
Qed.

Lemma X2_reachable_states_witness :
  let s := run [Start; Tick; Select "Long Focus"] classic_app in
  Forall sound default_techniques /\ 0 <= remaining_time s.
Proof.
  intro s.
  assert (Hs : Forall sound default_techniques)
    by (repeat constructor; discriminate).
  assert (Hre : reachable default_techniques s)
    by (exists classic_app, [Start; Tick; Select "Long Focus"]; split; reflexivity).
  split; [exact Hs |].
  exact (proj1 (X2_reachable_states default_techniques s Hs Hre)).
Defined.

Ltac case_conditions :=
  repeat match goal with
         | |- context [if ?c then _ else _] => destruct c eqn:?; simpl in *
         | |- context [match ?c with work => _ | _ => _ end] => destruct c eqn:?; simpl in *
         end.

Ltac case_flags :=
  repeat match goal with
         | b : bool |- _ => destruct b; simpl in *
         end.

Lemma step_buttons_agree (e : event) (s : PomodoroApp) :
  buttons_agree s -> buttons_agree (step e s).
Proof.
  unfold buttons_agree. intros H.
  destruct e; unfold step, click.
  - unfold start_timer.
    destruct s; simpl in *. case_conditions; subst; case_flags; intuition congruence.
  - unfold pause_timer.
    destruct s; simpl in *. case_conditions; subst; case_flags; intuition congruence.
  - remember (reset_button s) as rb eqn:Erb in |- *. destruct rb; [| exact H].
    unfold reset_timer, update_display. simpl.
    repeat split; auto; discriminate.
  - destruct (find (fun t => String.eqb (name t) selected) (techniques s)) as [t |] eqn:E.
    + destruct (on_technique_changed_sets selected s t E) as (d & v & c & ->). exact H.
    + unfold on_technique_changed. rewrite E. exact H.
  - unfold run_timer_step. destruct (timer_threads s) eqn:Et; [exact H |].
    destruct s; simpl in *. case_conditions; subst; case_flags; intuition congruence.
  - destruct (after_queue s) as [| c q] eqn:Eq; [exact H |].
    destruct c; unfold run_callback.
    + destruct (update_display_sets (set_after_queue s q)) as (d & v & ->). exact H.
    + unfold handle_timer_complete.
      destruct s; simpl in *; case_conditions; subst; case_flags; intuition congruence.
Qed.

Lemma reachable_buttons_agree (ts : list Technique) (s : PomodoroApp) :
  reachable ts s -> buttons_agree s.
Proof.
  intros (s0 & es & Hi & ->).
  assert (H0 : buttons_agree s0).
  { destruct ts as [| t ts']; [discriminate |]. injection Hi as <-.
    unfold buttons_agree. simpl. repeat split. discriminate. }
  clear Hi. revert s0 H0. induction es as [| e es IH]; intros s0 H0; [exact H0 |].
  rewrite run_cons. apply IH, step_buttons_agree, H0.
Qed.

(** X3: in every state that the application reaches, the Start button is
    disabled exactly while the timer counts down (runs and is not
    paused), the Pause and Reset buttons are enabled exactly while the
    timer runs, the Pause button reads Resume exactly while the timer is
    paused, and a paused timer is a running one. *)
Theorem X3_buttons_follow_flags (ts : list Technique) (s : PomodoroApp) :
  reachable ts s ->
  start_button s = negb (timer_running s && negb (timer_paused s)) /\
  pause_button s = timer_running s /\
  reset_button s = timer_running s /\
  pause_button_text s = (if timer_paused s then "Resume" else "Pause") /\
  (timer_paused s = true -> timer_running s = true).
Proof.
  intros Hre. pose proof (reachable_buttons_agree ts s Hre) as H.
  unfold buttons_agree in H. exact H.
Qed.

Lemma X3_buttons_follow_flags_witness :
  let s := run [Start; Tick; Pause; Tick] classic_app in
  reachable default_techniques s /\ pause_button_text s = "Resume".
Proof.
  intro s.
  assert (Hre : reachable default_techniques s)
    by (exists classic_app, [Start; Tick; Pause; Tick]; split; reflexivity).
  split; [exact Hre |].
  exact (proj1 (proj2 (proj2 (proj2 (X3_buttons_follow_flags default_techniques s Hre))))).
Defined.

(** ** Whole phases and their edges *)

Ltac unfold_setters :=
  unfold root_after, spawn_run_timer, show_notification, set_timer_running,
    set_timer_paused, set_remaining_time, set_current_phase,
    set_completed_cycles, set_techniques, set_current_technique,
    set_time_display, set_progress, set_phase_var, set_cycle_var, set_start_button,
    set_pause_button, set_reset_button, set_timer_threads, set_after_queue,
    set_notifications in *;
  simpl in *.

Lemma ticks_exact (n : nat) (s : PomodoroApp) :
  Running s -> timer_threads s <> O -> Z.of_nat n <= remaining_time s ->
  run (repeat Tick n) s =
    set_after_queue (set_remaining_time s (remaining_time s - Z.of_nat n))
      (after_queue s ++ repeat cb_update_display n).
Proof.
  revert s. induction n as [| n IH]; intros s Hr Ht Hn.
  - destruct s. unfold_setters. rewrite app_nil_r. f_equal. lia.
  - cbn [repeat]. rewrite run_cons, (tick_running s Hr) by (auto; lia).
    rewrite IH; [| exact Hr | exact Ht | simpl; lia].
    destruct s. unfold_setters. rewrite <- app_assoc. f_equal. lia.
Qed.

Lemma dispatch_updates (n : nat) (s : PomodoroApp) (q : list callback) :
  after_queue s = repeat cb_update_display n ++ q ->
  exists d v,
    run (repeat Dispatch n) s = set_progress (set_time_display (set_after_queue s q) d) v.
Proof.
  revert s. induction n as [| n IH]; intros s Hq.
  - exists (time_display s), (progress s). destruct s. unfold_setters. subst. reflexivity.
  - cbn [repeat]. rewrite run_cons. unfold step. rewrite Hq. cbn [repeat app run_callback].
    destruct (update_display_sets (set_after_queue s (repeat cb_update_display n ++ q)))
      as (d1 & v1 & ->).
    destruct (IH (set_progress
                    (set_time_display
                       (set_after_queue s (repeat cb_update_display n ++ q)) d1) v1))
      as (d & v & Hd); [reflexivity |].
    exists d, v. rewrite Hd. reflexivity.
Qed.

(** X4: a work phase from Start to the break.  After Start on the new
    application, [work_time * 60] passes of the thread, the pass that
    finds the time used up and the run of the waiting callbacks, the
    timer runs the break (the long break when the cycle length is 1) with
    its full time, one cycle is counted, one thread lives, no callback
    waits and exactly one message was shown. *)
Theorem X4_work_phase_to_break (t : Technique) (ts : list Technique) :
  0 <= work_time t -> cycles_before_long_break t <> 0 ->
  let n := Z.to_nat (work_time t * 60) in
  let s := run ((Start :: repeat Tick n) ++ Tick :: repeat Dispatch (S n)) (new_app t ts) in
  Running s /\
  completed_cycles s = 1 /\
  current_phase s = (if 1 mod cycles_before_long_break t =? 0 then long_break else break) /\
  remaining_time s = phase_minutes t (current_phase s) * 60 /\
  timer_threads s = 1%nat /\
  after_queue s = [] /\
  notifications s = ["Work period complete! Time for a break."].
Proof.
  intros Hw Hc n s. subst s.
  rewrite run_app, (run_cons Start).
  set (s1 := step Start (new_app t ts)).
  assert (H1 : Running s1) by (split; reflexivity).
  rewrite (ticks_exact n s1 H1) by (try discriminate; subst n s1; simpl; lia).
  set (s2 := set_after_queue _ _).
  assert (Hz : remaining_time s2 = 0) by (subst s2 s1 n; simpl; lia).
  rewrite (run_cons Tick), tick_at_zero by (try reflexivity; try discriminate; lia).
  set (s3 := root_after _ _).
  replace (repeat Dispatch (S n)) with (repeat Dispatch n ++ [Dispatch])
    by (rewrite <- repeat_cons; reflexivity).
  rewrite run_app.
  destruct (dispatch_updates n s3 [cb_handle_timer_complete]) as (d & v & Hd);
    [reflexivity |].
  rewrite Hd. unfold run, fold_left, step.
  cbn [after_queue set_progress set_time_display set_after_queue].
  cbn [run_callback]. rewrite complete_work by (try reflexivity; exact Hc).
  cbv zeta. simpl. unfold Running. simpl.
  replace (0 + 1) with 1 by lia.
  destruct (1 mod cycles_before_long_break t =? 0); simpl; repeat split.
Qed.

Lemma X4_work_phase_to_break_witness :
  0 <= work_time classic /\
  remaining_time
    (run ((Start :: repeat Tick 1500) ++ Tick :: repeat Dispatch 1501)
       (new_app classic default_techniques)) = 300.
Proof.
  assert (Hw : 0 <= work_time classic) by (vm_compute; discriminate).
  assert (Hc : cycles_before_long_break classic <> 0) by (vm_compute; discriminate).
  split; [exact Hw |].
  exact (proj1 (proj2 (proj2 (proj2 (X4_work_phase_to_break classic default_techniques Hw Hc))))).
Defined.

Lemma ticks_not_running (n : nat) (s : PomodoroApp) :
  timer_running s = false ->
  run (repeat Tick n) s = set_timer_threads s (timer_threads s - n)%nat.
Proof.
  revert s. induction n as [| n IH]; intros s Hr.
  - destruct s. simpl. rewrite Nat.sub_0_r. reflexivity.
  - cbn [repeat]. rewrite run_cons. unfold step, run_timer_step.
    destruct (timer_threads s) as [| k] eqn:Et.
    + rewrite IH by exact Hr. rewrite Et. reflexivity.
    + rewrite Hr. cbn [andb]. cbn [timer_running set_timer_threads]. rewrite Hr.
      rewrite IH by exact Hr. destruct s. simpl in *. subst. reflexivity.
Qed.

(** X5: while the timer does not run (as after Reset), each pass of a
    [run_timer] thread only ends that thread: the timer attributes and
    the labels stay, no completion and no refresh are asked for, nothing
    is shown. *)
Theorem X5_threads_end_silently (s : PomodoroApp) (n : nat) :
  Idle s ->
  let s' := run (repeat Tick n) s in
  timer_threads s' = (timer_threads s - n)%nat /\
  timer_state s' = timer_state s /\
  after_queue s' = after_queue s /\
  notifications s' = notifications s /\
  time_display s' = time_display s /\
  s' = set_timer_threads s (timer_threads s - n)%nat.
Proof.
  intros Hi. cbv zeta. rewrite (ticks_not_running n s Hi). repeat split.
Qed.

Lemma X5_threads_end_silently_witness :
  let s := run [Start; Tick; Reset] classic_app in
  Idle s /\ timer_threads (run (repeat Tick 3) s) = O.
Proof.
  intro s.
  assert (Hi : Idle s) by reflexivity.
  split; [exact Hi |].
  exact (proj1 (X5_threads_end_silently s 3 Hi)).
Defined.

(** X6: Reset does not take back a completion that waits in the Tk
    loop.  When Tk runs it after the Reset, the message of the long break
    is shown and the phase is set to ["work"] with its full time; the
    timer stays stopped, no cycle is counted, and the thread that is
    started ends at its first pass. *)
Theorem X6_completion_after_reset (s : PomodoroApp) (q : list callback) :
  reset_button s = true -> after_queue s = cb_handle_timer_complete :: q ->
  let s' := run [Reset; Dispatch] s in
  notifications s' =
    notifications s ++ ["Long break complete! Time to get back to work."] /\
  Idle s' /\ timer_paused s' = false /\
  current_phase s' = work /\
  completed_cycles s' = 0 /\
  remaining_time s' = work_time (current_technique s) * 60 /\
  after_queue s' = q /\
  timer_threads s' = S (timer_threads s) /\
  run [Tick] s' = set_timer_threads s' (timer_threads s).
Proof.
  intros Hb Hq. cbv zeta.
  assert (Hr : after_queue (reset_timer s) = cb_handle_timer_complete :: q)
    by (rewrite <- Hq; reflexivity).
  assert (E : run [Reset; Dispatch] s = complete (set_after_queue (reset_timer s) q)).
  { unfold run. cbn [fold_left]. unfold step at 2. unfold click. rewrite Hb.
    unfold step. rewrite Hr. unfold run_callback, complete. reflexivity. }
  rewrite E. unfold complete. rewrite complete_break by discriminate.
  set (s' := spawn_run_timer _).
  assert (Hth : timer_threads s' = S (timer_threads s)) by reflexivity.
  assert (Hrun : timer_running s' = false) by reflexivity.
  do 8 (split; [reflexivity |]).
  cbn [fst]. change [Tick] with (repeat Tick 1).
  rewrite (ticks_not_running 1 s' Hrun).
  replace (timer_threads s' - 1)%nat with (timer_threads s); [reflexivity |].
  rewrite Hth. lia.
Qed.

Lemma X6_completion_after_reset_witness :
  let s := run ((Start :: repeat Tick 1500) ++ Tick :: repeat Dispatch 1500) classic_app in
  reset_button s = true /\ Idle (run [Reset; Dispatch] s).
Proof.
  intro s.
  assert (Hb : reset_button s = true) by (vm_compute; reflexivity).
  assert (Hq : after_queue s = [cb_handle_timer_complete]) by (vm_compute; reflexivity).
  split; [exact Hb |].
  exact (proj1 (proj2 (X6_completion_after_reset s [] Hb Hq))).
Defined.

Lemma tick_dispatch_at_zero (s : PomodoroApp) :
  timer_running s = true -> remaining_time s <= 0 ->
  timer_threads s = 1%nat -> after_queue s = [] ->
  run [Tick; Dispatch] s = complete (set_timer_threads s 0).
Proof.
  intros Hr Hz Ht Hq. unfold run. cbn [fold_left].
  rewrite tick_at_zero by (auto; lia).
  unfold step, root_after. cbn [after_queue set_after_queue set_timer_threads].
  rewrite Hq, Ht. cbn [app pred]. unfold run_callback, complete.
  do 2 f_equal. destruct s. unfold_setters. subst. reflexivity.
Qed.

Lemma complete_zero_cycle (s : PomodoroApp) :
  current_phase s = work -> cycles_before_long_break (current_technique s) = 0 ->
  handle_timer_complete s =
    (set_completed_cycles (show_notification s) (completed_cycles s + 1),
     Some ZeroDivisionError).
Proof.
  intros Hp Hc. unfold handle_timer_complete. simpl. rewrite Hp, Hc. reflexivity.
Qed.

(** X7: a technique whose cycle length is 0 stalls the timer at the end
    of its first work phase.  [handle_timer_complete] raises
    [ZeroDivisionError] after it has shown the message and counted the
    cycle: the phase stays ["work"], the time stays used up, no thread is
    started and nothing waits in the Tk loop, while the timer still counts
    as running; no pass of a thread and no callback changes this. *)
Theorem X7_zero_cycle_length_stalls (s : PomodoroApp) :
  timer_running s = true -> remaining_time s <= 0 ->
  timer_threads s = 1%nat -> after_queue s = [] ->
  current_phase s = work -> cycles_before_long_break (current_technique s) = 0 ->
  snd (handle_timer_complete s) = Some ZeroDivisionError /\
  let s' := run [Tick; Dispatch] s in
  timer_running s' = true /\ current_phase s' = work /\
  remaining_time s' = remaining_time s /\
  completed_cycles s' = completed_cycles s + 1 /\
  notifications s' = notifications s ++ ["Work period complete! Time for a break."] /\
  timer_threads s' = O /\ after_queue s' = [] /\
  forall es, Forall (fun e => e = Tick \/ e = Dispatch) es -> run es s' = s'.
Proof.
  intros Hr Hz Ht Hq Hp Hc.
  split; [rewrite complete_zero_cycle by assumption; reflexivity |].
  cbv zeta. rewrite tick_dispatch_at_zero by assumption.
  unfold complete. rewrite complete_zero_cycle by assumption. cbn [fst].
  set (s' := set_completed_cycles _ _).
  assert (Ht' : timer_threads s' = O) by reflexivity.
  assert (Hq' : after_queue s' = []) by exact Hq.
  do 4 (split; [assumption || reflexivity |]).
  split; [subst s'; simpl; rewrite Hp; reflexivity |].
  do 2 (split; [assumption |]).
  intros es Hes. induction Hes as [| e es [-> | ->] _ IH]; [reflexivity | |];
    rewrite run_cons; unfold step; rewrite ?Ht', ?Hq'; exact IH.
Qed.

Lemma X7_zero_cycle_length_stalls_witness :
  let s := run ((Start :: repeat Tick 60) ++ repeat Dispatch 60) (new_app no_cycle [no_cycle]) in
  cycles_before_long_break (current_technique s) = 0 /\
  timer_threads (run [Tick; Dispatch] s) = O.
Proof.
  intro s.
  assert (Hr : timer_running s = true) by (vm_compute; reflexivity).
  assert (Hz : remaining_time s <= 0) by (vm_compute; discriminate).
  assert (Ht : timer_threads s = 1%nat) by (vm_compute; reflexivity).
  assert (Hq : after_queue s = []) by (vm_compute; reflexivity).
  assert (Hp : current_phase s = work) by (vm_compute; reflexivity).
  assert (Hc : cycles_before_long_break (current_technique s) = 0)
    by (vm_compute; reflexivity).
  split; [exact Hc |].
  exact (proj1 (proj2 (proj2 (proj2 (proj2 (proj2
    (proj2 (X7_zero_cycle_length_stalls s Hr Hz Ht Hq Hp Hc)))))))).
Defined.

(** X8: Pause does not hold back a completion that is due.  When the
    timer is paused with its time used up, the thread still leaves its
    loop and [handle_timer_complete] runs: the message is shown and the
    next phase is set up with its full time; the new phase then waits,
    paused, and no pass of its thread takes time off. *)
Theorem X8_paused_at_zero_completes (s : PomodoroApp) :
  Paused s -> remaining_time s <= 0 ->
  timer_threads s = 1%nat -> after_queue s = [] ->
  cycles_before_long_break (current_technique s) <> 0 ->
  let s' := run [Tick; Dispatch] s in
  Paused s' /\
  notifications s' = notifications s ++ [notification_message (current_phase s)] /\
  current_phase s' <> current_phase s /\
  remaining_time s' = phase_minutes (current_technique s) (current_phase s') * 60 /\
  timer_threads s' = 1%nat /\
  forall n, timer_state (run (repeat Tick n) s') = timer_state s'.
Proof.
  intros [Hr Hp] Hz Ht Hq Hc. cbv zeta.
  rewrite tick_dispatch_at_zero by assumption. unfold complete.
  assert (Hcases : current_phase s = work \/ current_phase s <> work)
    by (destruct (current_phase s); auto; right; discriminate).
  destruct Hcases as [Hw | Hb].
  - rewrite complete_work by assumption. cbv zeta. cbn [fst].
    set (s' := spawn_run_timer _).
    assert (Hp' : Paused s') by (split; assumption).
    split; [exact Hp' |].
    split; [subst s'; simpl; reflexivity |].
    split; [subst s'; simpl; rewrite Hw; destruct (_ mod _ =? 0); discriminate |].
    split; [subst s'; simpl; destruct (_ mod _ =? 0); reflexivity |].
    split; [reflexivity |].
    intros n. apply ticks_paused, Hp'.
  - rewrite complete_break by assumption. cbn [fst].
    set (s' := spawn_run_timer _).
    assert (Hp' : Paused s') by (split; assumption).
    split; [exact Hp' |].
    split; [reflexivity |].
    split; [subst s'; simpl; congruence |].
    split; [reflexivity |].
    split; [reflexivity |].
    intros n. apply ticks_paused, Hp'.
Qed.

Lemma X8_paused_at_zero_completes_witness :
  let s := run ((Start :: repeat Tick 1500) ++ Pause :: repeat Dispatch 1500) classic_app in
  Paused s /\ Paused (run [Tick; Dispatch] s).
Proof.
  intro s.
  assert (Hp : Paused s) by (split; vm_compute; reflexivity).
  assert (Hz : remaining_time s <= 0) by (vm_compute; discriminate).
  assert (Ht : timer_threads s = 1%nat) by (vm_compute; reflexivity).
  assert (Hq : after_queue s = []) by (vm_compute; reflexivity).
  assert (Hc : cycles_before_long_break (current_technique s) <> 0)
    by (vm_compute; discriminate).
  split; [exact Hp |].
  exact (proj1 (X8_paused_at_zero_completes s Hp Hz Ht Hq Hc)).
Defined.

(** ** The label and the choice of a technique *)

Lemma find_first_named (n : string) (l1 l2 : list Technique) (t : Technique) :
  name t = n -> (forall t', In t' l1 -> name t' <> n) ->
  find (fun t => String.eqb (name t) n) (l1 ++ t :: l2) = Some t.
Proof.
  intros Ht Hl. induction l1 as [| t1 l1 IH]; simpl.
  - rewrite Ht, String.eqb_refl. reflexivity.
  - destruct (String.eqb_spec (name t1) n) as [E | _].
    + exfalso. apply (Hl t1); [left; reflexivity | exact E].
    + apply IH. intros t' Hin. apply Hl. right. exact Hin.
Qed.





Lemma bar_bounds (e t : Z) :
  0 <= e <= t -> 0 < t ->
  (0 <= inject_Z e / inject_Z t * 100 <= 100)%Q.
Proof.
  intros [He Het] Ht.
  assert (Qt : (0 < inject_Z t)%Q)
    by (change (inject_Z 0 < inject_Z t)%Q; rewrite <- Zlt_Qlt; exact Ht).
  assert (H0 : (0 <= inject_Z e / inject_Z t)%Q).
  { apply Qle_shift_div_l; [exact Qt |]. rewrite Qmult_0_l.
    change (inject_Z 0 <= inject_Z e)%Q. rewrite <- Zle_Qle. exact He. }
  assert (H1 : (inject_Z e / inject_Z t <= 1)%Q).
  { apply Qle_shift_div_r; [exact Qt |]. rewrite Qmult_1_l.
    rewrite <- Zle_Qle. exact Het. }
  split.
  - apply Qmult_le_0_compat; [exact H0 | discriminate].
  - apply Qle_trans with (1 * 100)%Q; [| discriminate].
    apply Qmult_le_compat_r; [exact H1 | discriminate].
Qed.

(** X10: what [update_display] shows.  While the timer counts down the
    label shows the remaining time, as minutes and as seconds below 60.
    The call raises [ZeroDivisionError] exactly when the phase under way
    lasts 0 seconds; the label is set all the same, the bar is not.  When
    the phase lasts longer and the remaining time lies between 0 and the
    length of the phase, the bar is set between 0 and 100: to 0 with the
    whole phase ahead and to 100 with no time left.  While the timer is
    stopped or paused the call never raises, the label shows the work time
    of the current technique, whatever time remains, and the bar is at
    0. *)
Theorem X10_label_and_bar (s : PomodoroApp) :
  let total := phase_minutes (current_technique s) (current_phase s) * 60 in
  let r := update_display s in
  let s' := fst r in
  (Running s ->
     displayed_seconds s' = remaining_time s /\
     0 <= snd (time_display s') < 60 /\
     (snd r = Some ZeroDivisionError <-> total = 0) /\
     (total = 0 -> progress s' = progress s) /\
     (0 < total -> 0 <= remaining_time s <= total ->
        (0 <= progress s' <= 100)%Q /\
        (remaining_time s = total -> (progress s' == 0)%Q) /\
        (remaining_time s = 0 -> (progress s' == 100)%Q))) /\
  (Idle s \/ Paused s ->
     snd r = None /\
     time_display s' = (work_time (current_technique s), 0) /\
     progress s' = 0%Q).
Proof.
  cbv zeta. unfold update_display, Running, Idle, Paused. split.
  - intros [Hr Hp]. rewrite Hr, Hp. cbn [andb negb].
    cbn [current_technique current_phase remaining_time set_time_display].
    set (total := phase_minutes (current_technique s) (current_phase s) * 60).
    destruct (Z.eqb_spec total 0) as [E | E]; unfold displayed_seconds; cbn [fst snd].
    + cbn [time_display progress set_time_display fst snd].
      split; [pose proof (Z.div_mod (remaining_time s) 60); lia |].
      split; [apply Z.mod_pos_bound; lia |].
      split; [tauto |]. split; [reflexivity | lia].
    + cbn [time_display progress set_progress set_time_display fst snd].
      split; [pose proof (Z.div_mod (remaining_time s) 60); lia |].
      split; [apply Z.mod_pos_bound; lia |].
      split; [split; [discriminate | contradiction] |].
      split; [contradiction |].
      intros Ht Hrem. split; [apply bar_bounds; lia |]. split.
      * intros ->. rewrite Z.sub_diag. reflexivity.
      * intros ->. rewrite Z.sub_0_r.
        assert (Hn : ~ (inject_Z total == 0)%Q)
          by (intros H; apply (Qlt_not_eq 0 (inject_Z total));
              [change (inject_Z 0 < inject_Z total)%Q; rewrite <- Zlt_Qlt; exact Ht
              | symmetry; exact H]).
        unfold Qdiv. rewrite (Qmult_inv_r _ Hn). reflexivity.
  - intros H.
    assert (E : timer_running s && negb (timer_paused s) = false)
      by (destruct H as [-> | [-> ->]]; reflexivity).
    rewrite E. repeat split.
Qed.

Lemma X10_label_and_bar_witness :
  let s := run [Start; Tick] classic_app in
  Running s /\ displayed_seconds (fst (update_display s)) = 1499.
Proof.
  intro s.
  assert (Hr : Running s) by (split; reflexivity).
  split; [exact Hr |].
  exact (proj1 (proj1 (X10_label_and_bar s) Hr)).
Defined.

(** ** More on loading and saving *)

Lemma technique_of_data_raises (d : pyval) :
  (forall items, d <> PDict items) \/
  (exists items k, d = PDict items /\
     In k ["name"; "work_time"; "break_time"] /\ dict_get k items = None) ->
  technique_of_data d = Raise TypeError \/ technique_of_data d = Raise KeyError.
Proof.
  intros [Hn | (items & k & -> & Hk & Hget)].
  - left. destruct d; try reflexivity. exfalso. apply (Hn items). reflexivity.
  - right. unfold technique_of_data, subscript. simpl in Hk.
    destruct (dict_get "name" items) eqn:En; [| reflexivity].
    destruct (dict_get "work_time" items) eqn:Ew; [| reflexivity].
    destruct (dict_get "break_time" items) eqn:Eb; [| reflexivity].
    destruct Hk as [<- | [<- | [<- | []]]]; congruence.
Qed.

Lemma technique_of_data_errors (d : pyval) (e : exn) :
  technique_of_data d = Raise e -> e = TypeError \/ e = KeyError.
Proof.
  unfold technique_of_data, subscript, get.
  destruct d as [| | | | | | items]; try (intros [= <-]; left; reflexivity).
  destruct (dict_get "name" items); [| intros [= <-]; right; reflexivity].
  destruct (dict_get "work_time" items); [| intros [= <-]; right; reflexivity].
  destruct (dict_get "break_time" items); [| intros [= <-]; right; reflexivity].
  simpl. destruct (dict_get "long_break_time" items);
    destruct (dict_get "cycles_before_long_break" items);
    destruct (dict_get "description" items); discriminate.
Qed.

Lemma techniques_of_data_raises (l : list pyval) (d : pyval) (e : exn) :
  In d l -> technique_of_data d = Raise e ->
  exists e', techniques_of_data l = Raise e' /\ (e' = TypeError \/ e' = KeyError).
Proof.
  intros Hin Hd. induction l as [| d0 l IH]; [contradiction |]. simpl.
  destruct (technique_of_data d0) as [t0 | e0] eqn:E0.
  - destruct Hin as [-> | Hin]; [congruence |].
    destruct (IH Hin) as (e' & He' & Hk). exists e'. rewrite He'. auto.
  - exists e0. split; [reflexivity | apply (technique_of_data_errors d0), E0].
Qed.

(** X11: one bad record makes [load_techniques] give up the whole file.
    When an element of the array is not an object, or is an object without
    ["name"], ["work_time"] or ["break_time"], none of the records of the
    file is kept: the default list is returned and one dialog shows the
    error, a [TypeError] or a [KeyError]. *)
Theorem X11_bad_record_discards_file (l : list pyval) (d : pyval) :
  In d l ->
  (forall items, d <> PDict items) \/
  (exists items k, d = PDict items /\
     In k ["name"; "work_time"; "break_time"] /\ dict_get k items = None) ->
  exists e,
    load_techniques (Document (PList l)) =
      (Ok (map as_loaded default_techniques), [load_failed e]) /\
    (e = TypeError \/ e = KeyError).
Proof.
  intros Hin Hbad.
  assert (Hd : exists e, technique_of_data d = Raise e)
    by (destruct (technique_of_data_raises d Hbad) as [H | H]; eauto).
  destruct Hd as [e0 He0].
  destruct (techniques_of_data_raises l d e0 Hin He0) as (e & He & Hk).
  exists e. split; [| exact Hk].
  unfold load_techniques, read_techniques. simpl. rewrite He. reflexivity.
Qed.

Lemma X11_bad_record_discards_file_witness :
  let good := PDict [("name", PStr "A"); ("work_time", PInt 1); ("break_time", PInt 1)] in
  let bad := PDict [("name", PStr "B"); ("work_time", PInt 1)] in
  In bad [good; bad] /\
  exists e,
    load_techniques (Document (PList [good; bad])) =
      (Ok (map as_loaded default_techniques), [load_failed e]) /\
    (e = TypeError \/ e = KeyError).
Proof.
  intros good bad.
  assert (Hin : In bad [good; bad]) by (right; left; reflexivity).
  split; [exact Hin |].
  apply (X11_bad_record_discards_file [good; bad] bad Hin).
  right. exists [("name", PStr "B"); ("work_time", PInt 1)], "break_time".
  repeat split. right. right. left. reflexivity.
Defined.

Lemma technique_of_data_same_fields (items items' : list (string * pyval)) :
  same_fields items items' ->
  technique_of_data (PDict items) = technique_of_data (PDict items').
Proof.
  intros H. unfold technique_of_data, subscript, get.
  rewrite (H "name"), (H "work_time"), (H "break_time"), (H "long_break_time"),
    (H "cycles_before_long_break"), (H "description") by (simpl; tauto).
  reflexivity.
Qed.

(** X12: only the six keys of a technique count.  Two arrays of objects
    that hold, place by place, the same values under ["name"],
    ["work_time"], ["break_time"], ["long_break_time"],
    ["cycles_before_long_break"] and ["description"] load alike: other
    keys are ignored and the order of the keys within an object does not
    matter. *)
Theorem X12_only_six_keys_count (l l' : list (list (string * pyval))) :
  Forall2 same_fields l l' ->
  load_techniques (Document (PList (map PDict l))) =
  load_techniques (Document (PList (map PDict l'))).
Proof.
  intros H. unfold load_techniques, read_techniques. simpl.
  assert (E : techniques_of_data (map PDict l) = techniques_of_data (map PDict l')).
  { induction H as [| items items' l l' Hs _ IH]; [reflexivity |].
    simpl. rewrite (technique_of_data_same_fields items items' Hs), IH. reflexivity. }
  rewrite E. reflexivity.
Qed.

Lemma X12_only_six_keys_count_witness :
  let a := [("name", PStr "A"); ("work_time", PInt 30); ("break_time", PInt 6)] in
  let b := [("break_time", PInt 6); ("colour", PStr "red"); ("work_time", PInt 30);
            ("name", PStr "A")] in
  Forall2 same_fields [a] [b] /\
  load_techniques (Document (PList (map PDict [a]))) =
  load_techniques (Document (PList (map PDict [b]))).
Proof.
  intros a b.
  assert (H : Forall2 same_fields [a] [b]).
  { repeat constructor. intros k Hk. simpl in Hk.
    destruct Hk as [<- | [<- | [<- | [<- | [<- | [<- | []]]]]]]; reflexivity. }
  split; [exact H |].
  exact (X12_only_six_keys_count [a] [b] H).
Defined.

(** X13: whatever [load_techniques] returns, from any file, is a fixed
    point of saving and loading: once the list is saved without failure,
    [load_techniques] returns the same list, and shows no dialog.  This
    holds for a file that lacks optional keys and for one that made the
    loader fall back to the default list. *)
Theorem X13_load_save_load (f : file_state) (fs : filesystem) :
  exists ts,
    fst (load_techniques f) = Ok ts /\
    load_techniques (config_file (fst (fst (save_techniques ts no_fault fs)))) =
      (Ok ts, []).
Proof.
  destruct (load_techniques_returns f) as [ts Hts]. exists ts.
  split; [exact Hts |].
  unfold load_techniques, read_techniques. simpl.
  rewrite techniques_of_saved. reflexivity.
Qed.

(** ** The dialog that edits the techniques, once more *)

Lemma mark_deleted_spec (idx : nat) (frames : list technique_frame) (f : technique_frame) :
  nth_error frames idx = Some f ->
  exists frames',
    mark_deleted idx frames = Ok frames' /\
    List.length frames' = List.length frames /\
    nth_error frames' idx = Some (mkFrame (vars f) true) /\
    (forall j, j <> idx -> nth_error frames' j = nth_error frames j) /\
    map vars frames' = map vars frames.
Proof.
  revert idx. induction frames as [| f0 frames IH]; intros idx Hn.
  - destruct idx; discriminate.
  - destruct idx as [| i]; simpl in *.
    + injection Hn as ->. eexists. split; [reflexivity |].
      repeat split. intros [| j] Hj; [contradiction | reflexivity].
    + destruct (IH i Hn) as (rest & H1 & H2 & H3 & H4 & H5).
      exists (f0 :: rest). rewrite H1. simpl.
      repeat split; try congruence.
      intros [| j] Hj; [reflexivity |]. simpl. apply H4. congruence.
Qed.

Lemma mark_deleted_out_of_range (idx : nat) (frames : list technique_frame) :
  nth_error frames idx = None -> mark_deleted idx frames = Raise IndexError.
Proof.
  revert idx. induction frames as [| f0 frames IH]; intros idx Hn.
  - destruct idx; reflexivity.
  - destruct idx as [| i]; [discriminate |]. simpl in *. rewrite (IH i Hn). reflexivity.
Qed.

(** X14: with two or more frames not deleted, [delete_technique_frame]
    marks the frame of the given index and nothing else: the number of
    frames, the other frames and the values of all variables stay, and no
    dialog is shown.  An index past the last frame raises [IndexError]. *)
Theorem X14_delete_marks_one_frame (idx : nat) (frames : list technique_frame) :
  (2 <= List.length (live frames))%nat ->
  (forall f, nth_error frames idx = Some f ->
     exists frames',
       delete_technique_frame idx frames = Ok (frames', []) /\
       List.length frames' = List.length frames /\
       nth_error frames' idx = Some (mkFrame (vars f) true) /\
       (forall j, j <> idx -> nth_error frames' j = nth_error frames j) /\
       map vars frames' = map vars frames) /\
  (nth_error frames idx = None ->
     delete_technique_frame idx frames = Raise IndexError).
Proof.
  intros Hl. unfold delete_technique_frame.
  destruct (Nat.leb_spec (List.length (live frames)) 1) as [Hle | _]; [lia |].
  split.
  - intros f Hn. destruct (mark_deleted_spec idx frames f Hn) as (frames' & H1 & H2).
    exists frames'. rewrite H1. split; [reflexivity | exact H2].
  - intros Hn. rewrite (mark_deleted_out_of_range idx frames Hn). reflexivity.
Qed.

Lemma X14_delete_marks_one_frame_witness :
  let frames := edit_techniques default_techniques in
  (2 <= List.length (live frames))%nat /\
  delete_technique_frame 5 frames = Raise IndexError.
Proof.
  intro frames.
  assert (Hl : (2 <= List.length (live frames))%nat) by (vm_compute; lia).
  split; [exact Hl |].
  exact (proj2 (X14_delete_marks_one_frame 5 frames Hl) eq_refl).
Defined.

Lemma click_delete_keeps (frames : list technique_frame) (idx : nat) :
  live frames <> [] ->
  live (click_delete frames idx) <> [] /\
  incl (updated_techniques (click_delete frames idx)) (updated_techniques frames).
Proof.
  intros Hl. unfold click_delete.
  destruct (delete_technique_frame idx frames) as [[frames' ds] |] eqn:E;
    [| split; [exact Hl | apply incl_refl]].
  split; [exact (delete_keeps_one idx frames frames' ds E Hl) |].
  unfold delete_technique_frame in E.
  destruct (List.length (live frames) <=? 1)%nat;
    [injection E as <- _; apply incl_refl |].
  destruct (mark_deleted idx frames) as [rest |] eqn:Em; [| discriminate].
  simpl in E. injection E as <- _. clear Hl.
  revert idx rest Em. induction frames as [| f frames IH]; intros idx rest Em.
  - destruct idx; discriminate.
  - destruct idx as [| i]; simpl in Em.
    + injection Em as <-. unfold updated_techniques, live. simpl.
      destruct (deleted f); simpl; [apply incl_refl | apply incl_tl, incl_refl].
    + destruct (mark_deleted i frames) as [rest' |] eqn:Em'; [| discriminate].
      simpl in Em. injection Em as <-. specialize (IH i rest' Em').
      unfold updated_techniques, live in *. simpl.
      destruct (deleted f); simpl; [exact IH |].
      intros t [<- | Hin]; [left; reflexivity | right; apply IH, Hin].
Qed.

(** X15: whatever Delete buttons are clicked in the dialog, in whatever
    order, a frame is left that is not deleted: the list that Save
    Changes builds is never empty, and each of its techniques comes from
    a frame that was not deleted before the clicks. *)
Theorem X15_deletes_leave_a_technique (idxs : list nat) (frames : list technique_frame) :
  live frames <> [] ->
  let frames' := fold_left click_delete idxs frames in
  updated_techniques frames' <> [] /\
  incl (updated_techniques frames') (updated_techniques frames).
Proof.
  revert frames. induction idxs as [| idx idxs IH]; intros frames Hl.
  - split; [apply updated_techniques_not_empty, Hl | apply incl_refl].
  - cbn [fold_left]. destruct (click_delete_keeps frames idx Hl) as [Hl' Hi].
    destruct (IH (click_delete frames idx) Hl') as [H1 H2].
    split; [exact H1 | exact (incl_tran H2 Hi)].
Qed.

Lemma X15_deletes_leave_a_technique_witness :
  let frames := edit_techniques default_techniques in
  live frames <> [] /\
  updated_techniques (fold_left click_delete [0; 0; 1; 2; 1]%nat frames) <> [].
Proof.
  intro frames.
  assert (Hl : live frames <> []) by discriminate.
  split; [exact Hl |].
  exact (proj1 (X15_deletes_leave_a_technique [0; 0; 1; 2; 1]%nat frames Hl)).
Defined.

Lemma live_edit_techniques (ts : list Technique) :
  live (edit_techniques ts) = edit_techniques ts.
Proof.
  unfold live, edit_techniques. induction ts as [| t ts IH]; [reflexivity |].
  simpl. rewrite IH. reflexivity.
Qed.

Lemma updated_edit_techniques (ts : list Technique) :
  updated_techniques (edit_techniques ts) = ts.
Proof.
  unfold updated_techniques. rewrite live_edit_techniques.
  unfold edit_techniques. rewrite map_map. apply map_id.
Qed.

Lemma updated_mark_deleted (idx : nat) (ts : list Technique) :
  (idx < List.length ts)%nat ->
  exists frames',
    mark_deleted idx (edit_techniques ts) = Ok frames' /\
    updated_techniques frames' = firstn idx ts ++ skipn (S idx) ts.
Proof.
  revert idx. induction ts as [| t ts IH]; intros idx Hi; [simpl in Hi; lia |].
  destruct idx as [| i].
  - eexists. split; [reflexivity |].
    change (updated_techniques (edit_techniques ts) = ts).
    apply updated_edit_techniques.
  - destruct (IH i) as (rest & H1 & H2); [simpl in Hi; lia |].
    exists (mkFrame t false :: rest). split.
    + change (edit_techniques (t :: ts)) with (mkFrame t false :: edit_techniques ts).
      cbn [mark_deleted]. rewrite H1. reflexivity.
    + change (updated_techniques (mkFrame t false :: rest))
        with (t :: updated_techniques rest).
      rewrite H2. reflexivity.
Qed.

(** X16: the dialog gives back what it was opened with.  Save Changes
    on the frames as [edit_techniques] builds them yields the list of
    techniques unchanged; after one click on Delete of frame [idx], with
    two techniques or more, it yields the list without its element of
    index [idx], the others in their order. *)
Theorem X16_dialog_round_trip (ts : list Technique) :
  updated_techniques (edit_techniques ts) = ts /\
  (forall idx : nat,
     (idx < List.length ts)%nat -> (2 <= List.length ts)%nat ->
     updated_techniques (click_delete (edit_techniques ts) idx) =
       firstn idx ts ++ skipn (S idx) ts).
Proof.
  split; [apply updated_edit_techniques |].
  intros idx Hi H2. unfold click_delete, delete_technique_frame.
  rewrite live_edit_techniques. unfold edit_techniques at 1. rewrite length_map.
  destruct (Nat.leb_spec (List.length ts) 1) as [Hle | _]; [lia |].
  destruct (updated_mark_deleted idx ts Hi) as (frames' & H1 & Hu).
  rewrite H1. exact Hu.
Qed.

Lemma X16_dialog_round_trip_witness :
  (1 < List.length default_techniques)%nat /\
  map (fun t : Technique => name t)
    (updated_techniques (click_delete (edit_techniques default_techniques) 1)) =
    ["Classic Pomodoro"; "Short Burst"].
Proof.
  assert (Hi : (1 < List.length default_techniques)%nat) by (vm_compute; lia).
  assert (H2 : (2 <= List.length default_techniques)%nat) by (vm_compute; lia).
  split; [exact Hi |].
  rewrite (proj2 (X16_dialog_round_trip default_techniques) 1%nat Hi H2).
  reflexivity.
Defined.

Lemma find_app_first {A : Type} (f : A -> bool) (l1 l2 : list A) :
  find f (l1 ++ l2) = match find f l1 with Some x => Some x | None => find f l2 end.
Proof.
  induction l1 as [| a l1 IH]; [reflexivity |]. simpl. destruct (f a); [reflexivity | exact IH].
Qed.

Lemma current_after_choice (s : PomodoroApp) (n : string) (t : Technique) :
  find (fun t => String.eqb (name t) n) (techniques s) = Some t ->
  current_technique (fst (on_technique_changed n s)) = t.
Proof.
  intros H. destruct (on_technique_changed_sets n s t H) as (d & v & c & ->).
  reflexivity.
Qed.

(** X17: a technique that is added goes to the end of the list, the
    others keep their places, and the file that is then saved loads as
    the longer list.  No name is refused: when a technique of the list
    already bears the name of the new one, the choice of that name takes
    the older technique, never the place of the new one; the new one is
    taken when its name is new. *)
Theorem X17_added_technique (t : Technique) (ts : list Technique) (fs : filesystem) :
  let ts' := save_new_technique t ts in
  firstn (List.length ts) ts' = ts /\
  nth_error ts' (List.length ts) = Some t /\
  List.length ts' = S (List.length ts) /\
  load_techniques
    (config_file (fst (fst (save_techniques (map as_loaded ts') no_fault fs)))) =
    (Ok (map as_loaded ts ++ [as_loaded t]), []) /\
  (forall s : PomodoroApp, techniques s = ts' ->
     ((exists t0, In t0 ts /\ name t0 = name t) ->
        In (current_technique (fst (on_technique_changed (name t) s))) ts /\
        name (current_technique (fst (on_technique_changed (name t) s))) = name t) /\
     ((forall t0, In t0 ts -> name t0 <> name t) ->
        current_technique (fst (on_technique_changed (name t) s)) = t)).
Proof.
  cbv zeta. unfold save_new_technique.
  split; [rewrite firstn_app, Nat.sub_diag, firstn_all; simpl; apply app_nil_r |].
  split; [rewrite nth_error_app2, Nat.sub_diag by lia; reflexivity |].
  split; [rewrite length_app; simpl; lia |].
  split.
  - unfold load_techniques, read_techniques. simpl.
    rewrite techniques_of_saved, map_app. reflexivity.
  - intros s Hs. split.
    + intros (t0 & Hin & Hn).
      destruct (find (fun t1 => String.eqb (name t1) (name t)) ts) as [x |] eqn:E.
      * rewrite (current_after_choice s (name t) x)
          by (rewrite Hs, find_app_first, E; reflexivity).
        apply find_some in E as [Hx Hnx]. apply String.eqb_eq in Hnx. auto.
      * exfalso. apply (find_none _ _ E) in Hin. simpl in Hin.
        rewrite Hn, String.eqb_refl in Hin. discriminate.
    + intros Hnone. apply current_after_choice.
      rewrite Hs. apply find_first_named; [reflexivity | exact Hnone].
Qed.

Lemma X17_added_technique_witness :
  let t := mkTechnique "Long Focus" 45 15 20 3 "" in
  let s := set_techniques classic_app (save_new_technique t default_techniques) in
  (exists t0, In t0 default_techniques /\ name t0 = name t) /\
  In (current_technique (fst (on_technique_changed "Long Focus" s))) default_techniques.
Proof.
  intros t s.
  assert (H : exists t0, In t0 default_techniques /\ name t0 = name t)
    by (exists (nth 1 default_techniques classic); split;
        [right; left; reflexivity | reflexivity]).
  split; [exact H |].
  exact (proj1 (proj1 (proj2 (proj2 (proj2 (proj2
    (X17_added_technique t default_techniques (mkFs false NoFile))))) s eq_refl) H)).
Defined.


(** X18: Save Changes, as far as the current technique.  The techniques
    of the frames that are not deleted replace the list and are written
    to the file, which then loads as that list; the first of them becomes
    the current technique, whichever technique was chosen before, and the
    timer is not touched.  When [os.makedirs] fails the list in memory is
    replaced all the same, while the file and the current technique stay
    as they were. *)
Theorem X18_save_technique_changes (frames : list technique_frame)
    (s : PomodoroApp) (fs : filesystem) (t : Technique) (rest : list Technique) :
  updated_techniques frames = t :: rest ->
  let r := save_technique_changes frames no_fault s fs in
  let s' := fst (fst (fst r)) in
  let r0 := save_technique_changes frames makedirs_fails s fs in
  snd r = None /\
  techniques s' = t :: rest /\
  current_technique s' = t /\
  timer_state s' = timer_state s /\
  load_techniques (config_file (snd (fst (fst r)))) = (Ok (map as_loaded (t :: rest)), []) /\
  snd r0 = Some OSError /\
  techniques (fst (fst (fst r0))) = t :: rest /\
  current_technique (fst (fst (fst r0))) = current_technique s /\
  snd (fst (fst r0)) = fs.
Proof.
  intros Hu. cbv zeta. unfold save_technique_changes.
  cbn [techniques set_techniques save_techniques]. rewrite Hu.
  repeat split.
  unfold load_techniques, read_techniques. simpl. rewrite techniques_of_saved. reflexivity.
Qed.

Lemma X18_save_technique_changes_witness :
  let frames := click_delete (edit_techniques default_techniques) 0 in
  let s := fst (on_technique_changed "Short Burst" classic_app) in
  let r := save_technique_changes frames no_fault s (mkFs false NoFile) in
  name (current_technique s) = "Short Burst" /\
  name (current_technique (fst (fst (fst r)))) = "Long Focus".
Proof.
  intros frames s r. split; [reflexivity |].
  assert (Hu : updated_techniques frames =
               nth 1 default_techniques classic :: [nth 2 default_techniques classic])
    by reflexivity.
  pose proof (proj1 (proj2 (proj2
    (X18_save_technique_changes frames s (mkFs false NoFile) _ _ Hu)))) as H.
  cbv zeta in H. subst r. rewrite H. reflexivity.
Defined.



(** X20: [center_window] keeps the size of the window and puts it in
    the middle of the screen: on each axis the centre of the window is the
    centre of the screen when the two lengths have the same parity, and
    half a pixel off otherwise. *)
Theorem X20_center_window (width height screenwidth screenheight : Z) :
  match center_window width height screenwidth screenheight with
  | (w, h, x, y) =>
      w = width /\ h = height /\
      2 * x + width - screenwidth = width mod 2 - screenwidth mod 2 /\
      2 * y + height - screenheight = height mod 2 - screenheight mod 2 /\
      -1 <= 2 * x + width - screenwidth <= 1 /\
      -1 <= 2 * y + height - screenheight <= 1
  end.
Proof.
  unfold center_window.
  pose proof (Z.div_mod width 2). pose proof (Z.div_mod height 2).
  pose proof (Z.div_mod screenwidth 2). pose proof (Z.div_mod screenheight 2).
  pose proof (Z.mod_pos_bound width 2). pose proof (Z.mod_pos_bound height 2).
  pose proof (Z.mod_pos_bound screenwidth 2).
  pose proof (Z.mod_pos_bound screenheight 2).
  repeat split; lia.
Qed.

(** ** Pause and resume *)

Lemma pause_then_resume (s : PomodoroApp) :
  Running s -> start_button s = false -> pause_button s = true ->
  pause_button_text s = "Pause" ->
  start_timer (pause_timer s) = s /\ pause_timer (pause_timer s) = s /\
  start_button (pause_timer s) = true /\ pause_button (pause_timer s) = true /\
  (0 < remaining_time s -> step Tick (pause_timer s) = pause_timer s).
Proof.
  intros [Hr Hp] H1 H2 H3. destruct s. simpl in *. subst.
  unfold start_timer, pause_timer, step, run_timer_step. simpl.
  repeat split. intros Hz. destruct timer_threads0; [reflexivity |].
  destruct (Z.ltb_spec 0 remaining_time0); [reflexivity | lia].
Qed.

(** X21: Pause and resume give back the state.  From a state that the
    application reaches, in which the timer counts down with time left,
    a click on Pause, any number of passes of the threads, and then a
    click on Start or a second click on Pause, lead back to exactly the
    state before the first click: no second is lost, and the buttons are
    as they were. *)
Theorem X21_pause_resume_round_trip (ts : list Technique) (s : PomodoroApp) (n : nat) :
  reachable ts s -> Running s -> 0 < remaining_time s ->
  run (Pause :: repeat Tick n ++ [Start]) s = s /\
  run (Pause :: repeat Tick n ++ [Pause]) s = s.
Proof.
  intros Hre Hrun Hz.
  destruct (reachable_buttons_agree ts s Hre) as (H1 & H2 & H3 & H4 & _).
  destruct Hrun as [Hr Hp]. rewrite Hr, Hp in *. simpl in H1, H4.
  destruct (pause_then_resume s (conj Hr Hp) H1 H2 H4) as (E1 & E2 & B1 & B2 & Et).
  assert (Ep : step Pause s = pause_timer s)
    by (unfold step, click; rewrite H2; reflexivity).
  assert (Ek : forall k, run (repeat Tick k) (pause_timer s) = pause_timer s).
  { induction k as [| k IH]; [reflexivity |].
    cbn [repeat]. rewrite run_cons, (Et Hz). exact IH. }
  split; rewrite run_cons, run_app, Ep, Ek; unfold run; cbn [fold_left];
    unfold step, click; rewrite ?B1, ?B2; assumption.
Qed.

Lemma X21_pause_resume_round_trip_witness :
  let s := run [Start; Tick; Tick] classic_app in
  reachable default_techniques s /\
  run (Pause :: repeat Tick 4 ++ [Start]) s = s.
Proof.
  intro s.
  assert (Hre : reachable default_techniques s)
    by (exists classic_app, [Start; Tick; Tick]; split; reflexivity).
  assert (Hr : Running s) by (split; reflexivity).
  assert (Hz : 0 < remaining_time s) by reflexivity.
  split; [exact Hre |].
  exact (proj1 (X21_pause_resume_round_trip default_techniques s 4 Hre Hr Hz)).
Defined.
